(** * Filter-and-aggregation pipeline of the disaster dashboard

    A shallow embedding of [dash_app.py] and [utils.py]: the record store,
    the filter callback [store_data], the cascading option callbacks, the
    aggregations behind the statistic cards and the trend line, the two
    choropleth binners, and the header and value formatters.

    Conventions.  A pandas column is the list of its cells in row order; a
    nullable numeric cell is an [option Z] ([None] is NaN); a Python
    exception is a [Raise]; a callback that reads or writes the module-level
    frame [data] takes the store as an argument and returns it. *)

From Stdlib Require Import ZArith List String Ascii Bool Lia.
From Stdlib Require Import QArith Qpower.
From Stdlib Require Import Sorting.Sorted Sorting.Permutation Sorting.Mergesort Orders.
From Stdlib Require Import DecimalString DecimalZ DecimalPos.
From Stdlib Require Import Floats.SpecFloat.
Import ListNotations.

Local Open Scope list_scope.
Local Open Scope string_scope.
Local Open Scope Z_scope.

(** ** Python exceptions and fallible results *)

Inductive exn : Type :=
| KeyError (key : string)
| IndexError
| TypeError
| ValueError
| OverflowError
| IntCastingNaNError.

Inductive result (A : Type) : Type :=
| Ok (a : A)
| Raise (e : exn).

Arguments Ok {A} a.
Arguments Raise {A} e.

Definition bind {A B : Type} (m : result A) (k : A -> result B) : result B :=
  match m with
  | Ok a => k a
  | Raise e => Raise e
  end.

Notation "x <- m ;; k" := (bind m (fun x => k))
  (at level 61, m at next level, right associativity).

(** ** Python built-ins on text and lists *)

(** [str(n)] for an int. *)
Definition str (n : Z) : string := NilZero.string_of_int (Z.to_int n).

(** [int(s)] for a text; [ValueError] when it is not a numeral. *)
Definition int_of_str (s : string) : result Z :=
  match NilZero.int_of_string s with
  | Some d => Ok (Z.of_int d)
  | None => Raise ValueError
  end.

(** [x in xs] and [Series.isin(xs)] on text and on ints. *)
Definition isin (x : string) (xs : list string) : bool :=
  existsb (String.eqb x) xs.

Definition isin_int (x : Z) (xs : list Z) : bool :=
  existsb (Z.eqb x) xs.

(** [Series.unique()]: the distinct values in order of first appearance. *)
Fixpoint unique_acc (seen : list string) (xs : list string) : list string :=
  match xs with
  | [] => []
  | x :: xs' =>
      if isin x seen then unique_acc seen xs'
      else x :: unique_acc (x :: seen) xs'
  end.

Definition unique (xs : list string) : list string := unique_acc [] xs.

(** [sorted(xs)] on text: ascending in the code-point order of [str]. *)
Module StringOrder <: TotalLeBool.
Definition t := string.
Definition leb := String.leb.
Definition leb_total : forall a1 a2, leb a1 a2 = true \/ leb a2 a1 = true :=
  String.leb_total.
End StringOrder.

Module StringSort := Sort StringOrder.

Definition sorted (xs : list string) : list string := StringSort.sort xs.

(** [sorted(xs)] on ints. *)
Module ZOrder <: TotalLeBool.
Definition t := Z.
Definition leb := Z.leb.
Definition leb_total : forall a1 a2, leb a1 a2 = true \/ leb a2 a1 = true :=
  fun a1 a2 =>
    match Zle_bool_total a1 a2 with
    | left H => or_introl H
    | right H => or_intror H
    end.
End ZOrder.

Module ZSort := Sort ZOrder.

(** ** The record store

    One row of the sheet.  [year] is the integer of the sheet; the frame
    keeps its text, [year_text], since the module converts the column with
    [astype(str)] right after loading.  [month] and the three statistics are
    nullable.  [last_update] is the Timestamp that
    [pd.to_datetime(..., errors='coerce')] reads from the cell, for the
    store when the module loads and for the session's records in
    [update_stat_cards]; [None] is NaT, for a null cell and for a text that
    is no date.  The Timestamp is kept by its day: the only use of the
    column is the day of its maximum, which is the maximum of the days. *)

Record date : Type := {
  date_year : Z;
  date_month : Z;
  date_day : Z
}.

Record record : Type := {
  id : string;
  country : string;
  region : string;
  subregion : string;
  type : string;
  year : Z;
  month : option Z;
  total_deaths : option Z;
  total_affected : option Z;
  total_damage : option Z;
  last_update : option date
}.

Definition year_text (r : record) : string := str (year r).

(** The module-level frame [data]. *)
Definition store : Type := list record.

(** [frame['month'] = col]: the month column written back, row by row. *)
Definition with_month (r : record) (m : option Z) : record :=
  {| id := id r; country := country r; region := region r;
     subregion := subregion r; type := type r; year := year r;
     month := m;
     total_deaths := total_deaths r; total_affected := total_affected r;
     total_damage := total_damage r; last_update := last_update r |}.

Definition assign_month (rows : list record) (col : list Z) : list record :=
  map (fun rm => with_month (fst rm) (Some (snd rm))) (combine rows col).

(** [Series.astype(int)] on a nullable integer column: pandas refuses to
    cast a column that holds a NaN. *)
Fixpoint astype_int (col : list (option Z)) : result (list Z) :=
  match col with
  | [] => Ok []
  | Some m :: col' => ms <- astype_int col' ;; Ok (m :: ms)
  | None :: _ => Raise IntCastingNaNError
  end.

(** Module-level option lists. *)
Definition continents (data : store) : list string := sorted (unique (map region data)).
Definition subregions (data : store) : list string := sorted (unique (map subregion data)).
Definition countries (data : store) : list string := sorted (unique (map country data)).
Definition disaster_types (data : store) : list string := sorted (unique (map type data)).

(** ** Filter engine *)

(** The six inputs of the filter callbacks.  Every dropdown is multi-valued
    and the slider yields a list, so an input is [None] or a list. *)
Record criteria : Type := {
  selected_continent : option (list string);
  selected_subregion : option (list string);
  selected_country : option (list string);
  selected_year : option (list Z);
  selected_month : option (list Z);
  selected_disaster_type : option (list string)
}.

(** Truth value of [x and isinstance(x, list)]: a non-empty list. *)
Definition chosen {A : Type} (sel : option (list A)) : option (list A) :=
  match sel with
  | Some (x :: xs) => Some (x :: xs)
  | _ => None
  end.

(** [xs[i]] on a list. *)
Definition getitem {A : Type} (xs : list A) (i : nat) : result A :=
  match nth_error xs i with
  | Some x => Ok x
  | None => Raise IndexError
  end.

(** [mask &= col] and [frame[mask]]. *)
Definition mask_and (mask col : list bool) : list bool :=
  map (fun p => fst p && snd p) (combine mask col).

Definition select {A : Type} (rows : list A) (mask : list bool) : list A :=
  map fst (filter snd (combine rows mask)).

(** [store_data]: the store is read through the alias [filtered_data], so
    the assignment to its month column goes to the store itself.  The result
    is the store after the call and the records handed to the session. *)
Definition store_data (c : criteria) (data : store) : store * result (list record) :=
  let mask := repeat true (List.length data) in
  let mask :=
    match chosen (selected_continent c) with
    | Some sel => mask_and mask (map (fun r => isin (region r) sel) data)
    | None => mask
    end in
  let mask :=
    match chosen (selected_subregion c) with
    | Some sel => mask_and mask (map (fun r => isin (subregion r) sel) data)
    | None => mask
    end in
  let mask :=
    match chosen (selected_country c) with
    | Some sel => mask_and mask (map (fun r => isin (country r) sel) data)
    | None => mask
    end in
  let year_mask : result (list bool) :=
    match chosen (selected_year c) with
    | Some sel =>
        lo <- getitem sel 0 ;;
        hi <- getitem sel 1 ;;
        Ok (mask_and mask
              (map (fun r => String.leb (str lo) (year_text r)
                             && String.leb (year_text r) (str hi)) data))
    | None => Ok mask
    end in
  match year_mask with
  | Raise e => (data, Raise e)
  | Ok mask =>
      let month_step : result (store * list bool) :=
        match chosen (selected_month c) with
        | Some sel =>
            col <- astype_int (map month data) ;;
            Ok (assign_month data col,
                mask_and mask (map (fun m => isin_int m sel) col))
        | None => Ok (data, mask)
        end in
      match month_step with
      | Raise e => (data, Raise e)
      | Ok (data', mask) =>
          let mask :=
            match chosen (selected_disaster_type c) with
            | Some sel => mask_and mask (map (fun r => isin (type r) sel) data')
            | None => mask
            end in
          (data', Ok (select data' mask))
      end
  end.

(** An entry of a dropdown's [options]. *)
Record dropdown_option : Type := { label : string; value : string }.

Definition option_of (s : string) : dropdown_option := {| label := s; value := s |}.

(** [update_subregions]. *)
Definition update_subregions (data : store) (selected_continent : option (list string))
  : list dropdown_option :=
  match selected_continent with
  | Some (x :: xs) =>
      let filtered_subregions :=
        unique (map subregion (filter (fun r => isin (region r) (x :: xs)) data)) in
      map option_of filtered_subregions
  | _ => []
  end.

(** [update_countries]. *)
Definition update_countries (data : store)
  (selected_continent selected_subregion : option (list string)) : list dropdown_option :=
  let filtered_data := data in
  let filtered_data :=
    match selected_continent with
    | Some (x :: xs) => filter (fun r => isin (region r) (x :: xs)) filtered_data
    | _ => filtered_data
    end in
  let filtered_data :=
    match selected_subregion with
    | Some (x :: xs) => filter (fun r => isin (subregion r) (x :: xs)) filtered_data
    | _ => filtered_data
    end in
  let filtered_countries := unique (map country filtered_data) in
  let filtered_countries_sorted := sorted filtered_countries in
  map option_of filtered_countries_sorted.

(** [reset_filters]: the six outputs, in the order of the filter inputs. *)
Definition reset_filters (data : store) (n_clicks : option Z) : criteria :=
  {| selected_continent := None;
     selected_subregion := None;
     selected_country := None;
     selected_year := Some [2000; 2024];
     selected_month := None;
     selected_disaster_type := Some (disaster_types data) |}.

(** ** Numbers: Python ints and binary64 floats

    A Python float, and every float pandas produces (a mean, a median), is
    an IEEE 754 binary64 value: a [spec_float] at precision 53.  A number
    handed to the formatter is an int or a float. *)

Definition prec : Z := 53.
Definition emax : Z := 1024.

Inductive pynum : Type :=
| PyInt (n : Z)
| PyFloat (x : spec_float).

(** The binary64 value nearest to the quotient [n / d] of two ints, the
    result of Python's true division and of the division pandas performs on
    exactly represented operands; [0 / 0] is NaN. *)
Definition quotient (n d : Z) : spec_float :=
  match n, d with
  | 0, 0 => S754_nan
  | 0, _ => S754_zero (d <? 0)
  | _, 0 => S754_infinity (n <? 0)
  | _, _ =>
      SFdiv prec emax (S754_finite (n <? 0) (Z.to_pos (Z.abs n)) 0)
                      (S754_finite (d <? 0) (Z.to_pos (Z.abs d)) 0)
  end.

(** [float(n)]; an int beyond the binary64 range cannot be converted. *)
Definition float_of_int (n : Z) : result spec_float :=
  match binary_normalize prec emax n 0 false with
  | S754_infinity _ => Raise OverflowError
  | x => Ok x
  end.

(** Comparison of a float with an int, which Python decides on the exact
    values; a NaN compares with nothing. *)
Definition float_compare_int (x : spec_float) (k : Z) : option comparison :=
  match x with
  | S754_nan => None
  | S754_infinity s => Some (if s then Lt else Gt)
  | S754_zero _ => Some (0 ?= k)
  | S754_finite s m e =>
      let sm := if s then Zneg m else Zpos m in
      Some (if 0 <=? e then (sm * 2 ^ e ?= k) else (sm ?= k * 2 ^ (- e)))
  end.

Definition float_lt_int (x : spec_float) (k : Z) : bool :=
  match float_compare_int x k with Some Lt => true | _ => false end.

Definition float_le_int (x : spec_float) (k : Z) : bool :=
  match float_compare_int x k with Some Lt | Some Eq => true | _ => false end.

(** [value < k] for an int literal [k]. *)
Definition py_lt (value : pynum) (k : Z) : bool :=
  match value with
  | PyInt n => n <? k
  | PyFloat x => float_lt_int x k
  end.

(** [value / k] for a positive int literal [k]. *)
Definition truediv (value : pynum) (k : Z) : result spec_float :=
  match value with
  | PyInt n =>
      match quotient n k with
      | S754_infinity _ => Raise OverflowError
      | x => Ok x
      end
  | PyFloat x => Ok (SFdiv prec emax x (quotient k 1))
  end.

(** Rounding of [num / den] to the nearest integer, ties to the even one. *)
Definition round_half_even (num den : Z) : Z :=
  let q := num / den in
  match 2 * (num mod den) ?= den with
  | Lt => q
  | Gt => q + 1
  | Eq => if Z.even q then q else q + 1
  end.

(** Left padding with zeros to a width. *)
Fixpoint zfill (width : nat) (s : string) : string :=
  match width with
  | O => s
  | S w => if (String.length s <=? w)%nat then zfill w ("0" ++ s) else s
  end.

(** The digits of [N / 10^p] in fixed notation with [p] decimals. *)
Definition fixed_digits (p : nat) (N : Z) : string :=
  let scale := 10 ^ Z.of_nat p in
  match p with
  | O => str N
  | S _ => str (N / scale) ++ "." ++ zfill p (str (N mod scale))
  end.

(** [f"{x:.{p}f}"] on a float: the exact value rounded to [p] decimals,
    ties to even. *)
Definition format_float (p : nat) (x : spec_float) : string :=
  let sign (s : bool) := if s then "-" else "" in
  match x with
  | S754_nan => "nan"
  | S754_infinity s => sign s ++ "inf"
  | S754_zero s => sign s ++ fixed_digits p 0
  | S754_finite s m e =>
      let scale := 10 ^ Z.of_nat p in
      let N := if 0 <=? e then Zpos m * 2 ^ e * scale
               else round_half_even (Zpos m * scale) (2 ^ (- e)) in
      sign s ++ fixed_digits p N
  end.

(** [f"{value:.{p}f}"] on a number; an int is converted to a float first. *)
Definition format_fixed (p : nat) (value : pynum) : result string :=
  match value with
  | PyInt n => x <- float_of_int n ;; Ok (format_float p x)
  | PyFloat x => Ok (format_float p x)
  end.

(** [f"{n:,}"] on an int. *)
Fixpoint group3 (rev_digits : list ascii) : list ascii :=
  match rev_digits with
  | a :: b :: c :: rest =>
      match rest with
      | [] => [a; b; c]
      | _ => a :: b :: c :: ","%char :: group3 rest
      end
  | _ => rev_digits
  end.

Definition commas (n : Z) : string :=
  (if n <? 0 then "-" else "")
  ++ string_of_list_ascii (rev (group3 (rev (list_ascii_of_string (str (Z.abs n)))))).

(** ** utils.py *)

(** [selected_year]: a list from the range slider, one year, or [None]. *)
Inductive year_arg : Type :=
| YearList (ys : list Z)
| YearInt (y : Z)
| YearNone.

(** [selected_month]: [None], a month number, or the list a multi-valued
    dropdown yields. *)
Inductive month_arg : Type :=
| MonthNone
| MonthInt (m : Z)
| MonthList (ms : list Z).

Definition month_map : list (Z * string) :=
  [ (1, "January"); (2, "February"); (3, "March"); (4, "April");
    (5, "May"); (6, "June"); (7, "July"); (8, "August");
    (9, "September"); (10, "October"); (11, "November"); (12, "December") ].

(** [d[k]] on a dict with int keys. *)
Fixpoint dict_get (d : list (Z * string)) (k : Z) : result string :=
  match d with
  | [] => Raise (KeyError (str k))
  | (k', v) :: d' => if k =? k' then Ok v else dict_get d' k
  end.

(** [generate_header]. *)
Definition generate_header (header_text : string) (selected_disasters : list string)
  (selected_year : year_arg) (selected_month : month_arg) : result string :=
  let header_text :=
    match selected_disasters with
    | [a] => header_text ++ a
    | [a; b] => header_text ++ a ++ " and " ++ b
    | _ => header_text ++ "disasters"
    end in
  header_text <-
    match selected_year with
    | YearList ys =>
        y0 <- getitem ys 0 ;;
        y1 <- getitem ys 1 ;;
        if negb (y0 =? y1)
        then Ok (header_text ++ ", " ++ str y0 ++ " to " ++ str y1)
        else Ok (header_text ++ " in " ++ str y0)
    | YearInt y => Ok (header_text ++ " in " ++ str y)
    | YearNone => Ok header_text
    end ;;
  match selected_month with
  | MonthNone | MonthInt 0 | MonthList [] => Ok header_text
  | MonthInt m => name <- dict_get month_map m ;; Ok (header_text ++ " in " ++ name)
  | MonthList (_ :: _) => Raise TypeError
  end.

(** [format_value]. *)
Definition format_value (value : option pynum) : result string :=
  match value with
  | None => Ok "N/A"
  | Some value =>
      if py_lt value 1000 then
        format_fixed 0 value
      else if py_lt value 1000000 then
        x <- truediv value 1000 ;; Ok (format_float 1 x ++ "K")
      else if py_lt value 1000000000 then
        x <- truediv value 1000000 ;; Ok (format_float 1 x ++ "M")
      else
        x <- truediv value 1000000000 ;; Ok (format_float 1 x ++ "B")
  end.

Definition map_color : list string :=
  ["#96BBBB"; "#FEDC85"; "#FEB945"; "#C44802"; "#712805"].

(** ** Frames rebuilt from the session's records

    Each chart callback receives the list of record dicts that [store_data]
    returned and rebuilds a frame with [pd.DataFrame(data)].  The columns of
    such a frame are the keys of the dicts: every record carries the full
    schema, and a frame built from no record has no column at all. *)

Definition frame : Type := list record.

Definition DataFrame (data : list record) : frame := data.

(** [frame[name]]. *)
Definition column {A : Type} (f : frame) (name : string) (cell : record -> A)
  : result (list A) :=
  match f with
  | [] => Raise (KeyError name)
  | _ :: _ => Ok (map cell f)
  end.

(** [frame.empty]. *)
Definition empty (f : frame) : bool :=
  match f with [] => true | _ :: _ => false end.

(** [Series.sum()]: a NaN counts for nothing. *)
Definition nansum (xs : list (option Z)) : Z :=
  fold_right (fun x acc => match x with Some v => v + acc | None => acc end) 0 xs.

Definition dropna {A : Type} (xs : list (option A)) : list A :=
  flat_map (fun x => match x with Some v => [v] | None => [] end) xs.

(** The sum of a column over the rows of one group. *)
Definition group_sum (f : frame) (key : record -> string) (cell : record -> option Z)
  (k : string) : Z :=
  nansum (map cell (filter (fun r => key r =? k)%string f)).

(** [frame.groupby(key)[col].sum()]: one entry per distinct key, in
    ascending key order. *)
Definition groupby_sum (f : frame) (key_name : string) (key : record -> string)
  (cell : record -> option Z) : result (list (string * Z)) :=
  keys <- column f key_name key ;;
  Ok (map (fun k => (k, group_sum f key cell k)) (sorted (unique keys))).

(** [frame.groupby(key)['id'].count()]. *)
Definition groupby_count (f : frame) (key_name : string) (key : record -> string)
  : result (list (string * Z)) :=
  keys <- column f key_name key ;;
  Ok (map (fun k => (k, Z.of_nat (List.length (filter (fun r => key r =? k)%string f))))
          (sorted (unique keys))).

(** [Series.idxmax()]: the label of the first largest value. *)
Definition idxmax (s : list (string * Z)) : result string :=
  match s with
  | [] => Raise ValueError
  | kv :: s' =>
      Ok (fst (fold_left (fun best kv => if snd best <? snd kv then kv else best) s' kv))
  end.

(** The sum of an integer column. *)
Definition total (xs : list Z) : Z := fold_right Z.add 0 xs.

(** [Series.mean()] of an integer column, in binary64. *)
Definition mean (xs : list Z) : spec_float :=
  quotient (total xs) (Z.of_nat (List.length xs)).

(** [Series.median()]: the middle of the sorted non-null values, or the
    mean of the two middle ones; NaN when there is none. *)
Definition median (xs : list (option Z)) : spec_float :=
  let vs := ZSort.sort (dropna xs) in
  let n := List.length vs in
  match n with
  | O => S754_nan
  | S _ =>
      if Nat.even n
      then quotient (nth (n / 2 - 1) vs 0 + nth (n / 2) vs 0) 2
      else quotient (nth (n / 2) vs 0) 1
  end.

(** The value merged in from an aggregate, for a left merge on the key. *)
Fixpoint merged (agg : list (string * Z)) (k : string) : option Z :=
  match agg with
  | [] => None
  | (k', v) :: agg' => if (k =? k')%string then Some v else merged agg' k
  end.

(** ** Statistic cards *)

Record stat_cards : Type := {
  total_deaths_str : string;
  total_affected_str : string;
  total_damage_str : string;
  most_deaths_country : string;
  most_affected_country : string;
  most_damaged_country : string;
  last_updated_str : string
}.

(** The guarded expression
    [frame.groupby('country')[col].sum().idxmax() if not frame.empty else 'N/A']. *)
Definition most_country (filtered_data : frame) (cell : record -> option Z) : result string :=
  if negb (empty filtered_data)
  then s <- groupby_sum filtered_data "country" country cell ;; idxmax s
  else Ok "N/A".

(** The order of the dates. *)
Definition date_leb (a b : date) : bool :=
  (date_year a <? date_year b)
  || ((date_year a =? date_year b)
      && ((date_month a <? date_month b)
          || ((date_month a =? date_month b) && (date_day a <=? date_day b)))).

(** [Series.max()] on a datetime column: the latest of the dates, NaT
    skipped; [None], NaT, when there is no date. *)
Definition latest (dates : list (option date)) : option date :=
  fold_right (fun d acc =>
                match d, acc with
                | Some a, Some b => Some (if date_leb a b then b else a)
                | Some a, None => Some a
                | None, _ => acc
                end) None dates.

(** [Timestamp.strftime('%Y-%m-%d')]; the year of a Timestamp has four
    digits. *)
Definition strftime (d : date) : string :=
  str (date_year d) ++ "-" ++ zfill 2 (str (date_month d))
  ++ "-" ++ zfill 2 (str (date_day d)).

(** What [last_updated] holds: a Timestamp, NaT, or the text 'N/A' of the
    guard. *)
Inductive last_updated_value : Type :=
| Timestamp (d : date)
| NaT
| NotAvailable.

(** [update_stat_cards].  Its first statement reads the [last_update]
    column and converts it with [pd.to_datetime]; the records carry the
    converted value. *)
Definition update_stat_cards (data : list record) : result stat_cards :=
  let filtered_data := DataFrame data in
  dates <- column filtered_data "last_update" last_update ;;
  deaths <- column filtered_data "total_deaths" total_deaths ;;
  affected <- column filtered_data "total_affected" total_affected ;;
  damage <- column filtered_data "total_damage" total_damage ;;
  let total_deaths' := nansum deaths in
  let total_affected' := nansum affected in
  let total_damage' := nansum damage in
  most_affected_country <- most_country filtered_data total_affected ;;
  most_damaged_country <- most_country filtered_data total_damage ;;
  most_deaths_country <- most_country filtered_data total_deaths ;;
  let last_updated :=
    if negb (empty filtered_data)
    then match latest dates with Some d => Timestamp d | None => NaT end
    else NotAvailable in
  last_updated_str <-
    match last_updated with
    | NotAvailable => Ok "Last update: N/A"
    | Timestamp d => Ok ("Data last update: " ++ strftime d)
    | NaT => Raise ValueError
    end ;;
  Ok {| total_deaths_str := commas total_deaths';
        total_affected_str := commas total_affected';
        total_damage_str := commas total_damage' ++ " US$";
        most_deaths_country := most_deaths_country;
        most_affected_country := most_affected_country;
        most_damaged_country := most_damaged_country;
        last_updated_str := last_updated_str |}.

(** ** Trend line *)

Record trend_figure : Type := {
  points : list (Z * Z);
  hline : spec_float;
  annotation_text : string
}.

Fixpoint traverse {A B : Type} (f : A -> result B) (xs : list A) : result (list B) :=
  match xs with
  | [] => Ok []
  | x :: xs' => y <- f x ;; ys <- traverse f xs' ;; Ok (y :: ys)
  end.

(** [plot_line_casualty_trend]: the series drawn, the height of the
    reference line and its annotation. *)
Definition plot_line_casualty_trend (data : list record) : result trend_figure :=
  let filtered_data := DataFrame data in
  deaths_by_country_year <- groupby_sum filtered_data "year" year_text total_deaths ;;
  let mean_death := mean (map snd deaths_by_country_year) in
  years <- traverse int_of_str (map fst deaths_by_country_year) ;;
  text <- format_value (Some (PyFloat mean_death)) ;;
  Ok {| points := combine years (map snd deaths_by_country_year);
        hline := mean_death;
        annotation_text := "Period mean:" ++ text |}.

(** ** Binner *)

(** A bin edge: a number or [float('inf')]. *)
Inductive edge : Type :=
| Fin (b : Z)
| Inf.

Definition edge_lt (e : edge) (v : Z) : bool :=
  match e with Fin b => b <? v | Inf => false end.

Definition edge_eq (e : edge) (v : Z) : bool :=
  match e with Fin b => b =? v | Inf => false end.

Definition le_edge (v : Z) (e : edge) : bool :=
  match e with Fin b => v <=? b | Inf => true end.

(** [pd.cut(x, bins, labels, include_lowest=True)] on one value: the label
    of the right-closed interval that holds it, the first interval also
    holding its left edge; NaN outside every interval. *)
Fixpoint cut_from (lowest : bool) (lo : edge) (bins : list edge) (labels : list string)
  (v : Z) : option string :=
  match bins, labels with
  | hi :: bins', l :: labels' =>
      if (edge_lt lo v || (lowest && edge_eq lo v)) && le_edge v hi
      then Some l
      else cut_from false hi bins' labels' v
  | _, _ => None
  end.

Definition cut (bins : list edge) (labels : list string) (x : option Z) : option string :=
  match x, bins with
  | Some v, lo :: bins' => cut_from true lo bins' labels v
  | _, _ => None
  end.

(** A row handed to the choropleth: the location, the value shown on hover
    and the category that picks the colour. *)
Record map_row : Type := {
  row_country : option string;
  row_value : option Z;
  row_category : option string
}.

Record choropleth : Type := {
  chart_rows : list map_row;
  category_orders : list string;
  color_discrete_map : list (string * string)
}.

Definition has_category (l : string) (row : map_row) : bool :=
  match row_category row with
  | Some l' => (l' =? l)%string
  | None => false
  end.

Definition no_category (row : map_row) : bool :=
  match row_category row with Some _ => false | None => true end.

(** [frame.sort_values(col)] on an ordered categorical column: by position
    of the category in [labels], rows without a category last. *)
Definition sort_values (rows : list map_row) (labels : list string) : list map_row :=
  (flat_map (fun l => filter (has_category l) rows) labels ++ filter no_category rows)%list.

(** [{labels[i]: map_color[i] for i in range(len(labels))}]. *)
Definition category_color (labels : list string) : result (list (string * string)) :=
  traverse (fun i => l <- getitem labels i ;; c <- getitem map_color i ;; Ok (l, c))
           (seq 0 (List.length labels)).

(** The row synthesised for a category no country falls in. *)
Definition placeholder (fill : Z) (l : string) : map_row :=
  {| row_country := None; row_value := Some fill; row_category := Some l |}.

(** The part the two binners share, from the merged column on: [fill] is
    the value given to the rows synthesised for the categories no country
    falls in. *)
Definition categorise (filtered_data : frame) (by_country : list (option Z))
  (bins : list edge) (labels : list string) (fill : Z) : result choropleth :=
  let category := map (cut bins labels) by_country in
  let rows :=
    map (fun rc => {| row_country := Some (country (fst (fst rc)));
                      row_value := snd (fst rc);
                      row_category := snd rc |})
        (combine (combine filtered_data by_country) category) in
  let existing_categories := unique (dropna category) in
  let missing_categories := filter (fun l => negb (isin l existing_categories)) labels in
  let rows :=
    match missing_categories with
    | [] => rows
    | _ :: _ => (rows ++ map (placeholder fill) missing_categories)%list
    end in
  let rows := sort_values rows labels in
  category_color <- category_color labels ;;
  Ok {| chart_rows := rows;
        category_orders := labels;
        color_discrete_map := category_color |}.

(** The boundary tables of the damage map and their dispatch on the median. *)
Definition damage_bins (median : spec_float) : list edge * list string :=
  if float_lt_int median 1000000 then
    ([Fin 0; Fin 1000; Fin 10000; Fin 100000; Fin 1000000; Inf],
     ["0 - 1K"; "1K - 10K"; "10K - 100K"; "100K - 1M"; "> 1M"])
  else if float_lt_int median 1000000000 then
    ([Fin 0; Fin 1000000; Fin 10000000; Fin 100000000; Fin 1000000000; Inf],
     ["0 - 1M"; "1M - 10M"; "10M - 100M"; "100M - 1B"; "> 1B"])
  else
    ([Fin 0; Fin 1000000000; Fin 10000000000; Fin 100000000000; Inf],
     ["0 - 1B"; "1B - 10B"; "10B - 100B"; "> 100B"]).

(** [mapA_damage_choropleth]. *)
Definition mapA_damage_choropleth (data : list record) : result choropleth :=
  let filtered_data := DataFrame data in
  agg_damage <- groupby_sum filtered_data "country" country total_damage ;;
  let damage_by_country := map (fun r => merged agg_damage (country r)) filtered_data in
  let median := median damage_by_country in
  let (bins, labels) := damage_bins median in
  categorise filtered_data damage_by_country bins labels 0.

(** The boundary tables of the disaster-count map. *)
Definition count_bins (median : spec_float) : list edge * list string :=
  if float_le_int median 20 then
    ([Fin 0; Fin 10; Fin 20; Fin 30; Fin 40; Inf],
     ["0 - 10"; "10 - 20"; "20 - 30"; "30 - 40"; "> 40"])
  else if float_le_int median 50 then
    ([Fin 0; Fin 15; Fin 25; Fin 50; Fin 100; Inf],
     ["0 - 15"; "15 - 25"; "25 - 50"; "50 - 100"; "> 100"])
  else
    ([Fin 0; Fin 50; Fin 100; Fin 200; Fin 300; Inf],
     ["0 - 50"; "50 - 100"; "100 - 200"; "200 - 300"; "> 300"]).

(** [mapB_disaster_count_choropleth]. *)
Definition mapB_disaster_count_choropleth (data : list record) : result choropleth :=
  let filtered_data := DataFrame data in
  agg_count <- groupby_count filtered_data "country" country ;;
  let total_disasters := map (fun r => merged agg_count (country r)) filtered_data in
  let median := median total_disasters in
  let (bins, labels) := count_bins median in
  categorise filtered_data total_disasters bins labels 1.

(** ** Card headers *)

(** The slider value and the month dropdown value as [generate_header]
    receives them from the callback: the dropdown is multi-valued, so a
    selection of months arrives as a list. *)
Definition year_value (sel : option (list Z)) : year_arg :=
  match sel with
  | Some ys => YearList ys
  | None => YearNone
  end.

Definition month_value (sel : option (list Z)) : month_arg :=
  match sel with
  | Some ms => MonthList ms
  | None => MonthNone
  end.

(** [generate_card_name]: the headers of the damage map, the count map, the
    bar chart and the trend line.  Without a list of disaster types,
    [len(selected_disasters)] is a [TypeError]. *)
Definition generate_card_name (c : criteria) : result (string * string * string * string) :=
  match selected_disaster_type c with
  | None => Raise TypeError
  | Some selected_disaster_type =>
      let selected_year := year_value (selected_year c) in
      let selected_month := month_value (selected_month c) in
      damage_header <-
        generate_header "Total damage (in US$) inflicted by "
          selected_disaster_type selected_year selected_month ;;
      disaster_count_damage_header <-
        generate_header "Total number of "
          selected_disaster_type selected_year selected_month ;;
      stacked_bar_chart_header <-
        generate_header "Trends of "
          selected_disaster_type selected_year selected_month ;;
      casualty_trend_header <-
        generate_header "Number of deaths by time from "
          selected_disaster_type selected_year selected_month ;;
      Ok (damage_header, disaster_count_damage_header,
          stacked_bar_chart_header, casualty_trend_header)
  end.

(** ** Stacked bars *)

Definition color_list : list string :=
  [ "#4C230A"; "#555B6E"; "#C44802"; "#568EA3"; "#84B59F"; "#BBE5ED"; "#0D160B"; "orange";
    "#9DCBBA"; "#5E8C61"; "#132A13"; "#00BD9D"; "#285943"; "#247BA0"; "#38726C"; "#1446A0";
    "#5C2751"; "#586A6A"; "#092327"; "#64113F"; "#26532B"; "#531CB3"; "#002A32"; "#749C75";
    "#473144"; "#514B23"; "#5C415D"; "#1B998B"; "#7C7287"; "#DC136C"; "#637081"; "#628B48";
    "#B388EB"; "#EC4E20"; "#114B5F" ].

(** The number of rows of one year and one type. *)
Definition pair_size (f : frame) (y t : string) : Z :=
  Z.of_nat (List.length
              (filter (fun r => (year_text r =? y)%string && (type r =? t)%string) f)).

(** [frame.groupby(['year', 'type']).size()]: one entry per pair of a year
    and a type that occurs, ascending by year then by type. *)
Definition groupby_size (f : frame) : result (list (string * string * Z)) :=
  years <- column f "year" year_text ;;
  Ok (flat_map
        (fun y =>
           map (fun t => (y, t, pair_size f y t))
               (sorted (unique (map type (filter (fun r => (year_text r =? y)%string) f)))))
        (sorted (unique years))).

Record bar_figure : Type := {
  bars : list (Z * string * Z);
  bar_colors : list (string * string)
}.

(** [plot_bar_total_disaster]: the bars drawn and the colour of each type.
    The colours are those of the types of the whole data set, taken from
    [color_list] by position. *)
Definition plot_bar_total_disaster (data_set : store) (data : list record)
  : result bar_figure :=
  let filtered_data := DataFrame data in
  disasters_type_and_year <- groupby_size filtered_data ;;
  disasters_type_and_year <-
    traverse (fun row => y <- int_of_str (fst (fst row)) ;; Ok (y, snd (fst row), snd row))
             disasters_type_and_year ;;
  let disaster_types := disaster_types data_set in
  disaster_colors <-
    traverse (fun i => t <- getitem disaster_types i ;;
                       c <- getitem color_list i ;; Ok (t, c))
             (seq 0 (List.length disaster_types)) ;;
  Ok {| bars := disasters_type_and_year; bar_colors := disaster_colors |}.

(** ** The specification's reading of the filter

    These definitions follow the words of the specification, to be compared
    with the callbacks above. *)

(** A dimension restricts only when its selection is a non-empty list. *)
Definition within (sel : option (list string)) (x : string) : bool :=
  match sel with
  | Some (y :: ys) => isin x (y :: ys)
  | _ => true
  end.

(** The year range, inclusive on both ends, on the numbers. *)
Definition year_within (sel : option (list Z)) (y : Z) : bool :=
  match sel with
  | Some (lo :: hi :: _) => (lo <=? y) && (y <=? hi)
  | _ => true
  end.

Definition month_within (sel : option (list Z)) (m : option Z) : bool :=
  match sel with
  | Some (x :: xs) =>
      match m with
      | Some v => isin_int v (x :: xs)
      | None => false
      end
  | _ => true
  end.

(** A record satisfies every non-empty criterion field. *)
Definition satisfies (c : criteria) (r : record) : bool :=
  within (selected_continent c) (region r)
  && within (selected_subregion c) (subregion r)
  && within (selected_country c) (country r)
  && year_within (selected_year c) (year r)
  && month_within (selected_month c) (month r)
  && within (selected_disaster_type c) (type r).

(** The filter property of the specification at one store and one criteria:
    the call returns, a record is returned iff it is stored and satisfies
    the criteria, and filtering the result again returns it unchanged. *)
Definition filter_property (data : store) (c : criteria) : Prop :=
  exists out,
    snd (store_data c data) = Ok out
    /\ (forall r, In r out <-> In r data /\ satisfies c r = true)
    /\ snd (store_data c out) = Ok out.

(** What the code compares: the texts of the years. *)
Definition year_text_within (sel : option (list Z)) (y : Z) : bool :=
  match sel with
  | Some (lo :: hi :: _) => String.leb (str lo) (str y) && String.leb (str y) (str hi)
  | _ => true
  end.

Definition matches (c : criteria) (r : record) : bool :=
  within (selected_continent c) (region r)
  && within (selected_subregion c) (subregion r)
  && within (selected_country c) (country r)
  && year_text_within (selected_year c) (year r)
  && month_within (selected_month c) (month r)
  && within (selected_disaster_type c) (type r).

(** Years written with four digits. *)
Definition four_digit (y : Z) : Prop := 1000 <= y <= 9999.

(** The year selection is absent, empty, or holds two four-digit bounds. *)
Definition year_selection_ok (sel : option (list Z)) : Prop :=
  match sel with
  | None | Some [] => True
  | Some [_] => False
  | Some (lo :: hi :: _) => four_digit lo /\ four_digit hi
  end.

(** The month cast succeeds: no month is selected, or no stored month is null. *)
Definition month_cast_ok (data : store) (sel : option (list Z)) : Prop :=
  chosen sel = None \/ Forall (fun r => month r <> None) data.

Definition digit (d : Z) : ascii := ascii_of_N (Z.to_N (48 + d)).

Definition four_digits (n : Z) : string :=
  String (digit (n / 1000))
    (String (digit (n / 100 mod 10))
       (String (digit (n / 10 mod 10))
          (String (digit (n mod 10)) EmptyString))).





(** The option list the specification asks of [subregionsFor]. *)
Definition subregionsFor (data : store) (continents : option (list string)) : list string :=
  sorted (unique (map subregion (filter (fun r => within continents (region r)) data))).

(** ** The specification's reading of the formatters *)

(** One type is named, two are joined by "and", none or three and more
    are "disasters". *)
Definition types_phrase (disasterTypes : list string) : string :=
  match List.length disasterTypes with
  | 1%nat => nth 0 disasterTypes ""
  | 2%nat => nth 0 disasterTypes "" ++ " and " ++ nth 1 disasterTypes ""
  | _ => "disasters"
  end.

(** A single year is "in" that year, a range goes from its start "to" its end. *)
Definition years_phrase (start stop : Z) : string :=
  if start =? stop then " in " ++ str start
  else ", " ++ str start ++ " to " ++ str stop.

Definition month_name (m : Z) : string :=
  nth (Z.to_nat (m - 1))
      ["January"; "February"; "March"; "April"; "May"; "June"; "July";
       "August"; "September"; "October"; "November"; "December"] "".

Definition month_phrase (month : option Z) : string :=
  match month with
  | None => ""
  | Some m => " in " ++ month_name m
  end.

Definition describeSelection (baseText : string) (disasterTypes : list string)
  (yearRange : Z * Z) (month : option Z) : string :=
  baseText ++ types_phrase disasterTypes
           ++ years_phrase (fst yearRange) (snd yearRange)
           ++ month_phrase month.

(** The optional month code as the argument of [generate_header]. *)
Definition month_code (month : option Z) : month_arg :=
  match month with
  | None => MonthNone
  | Some m => MonthInt m
  end.



(** ** The specification's reading of the binners *)

Definition is_placeholder (row : map_row) : bool :=
  match row_country row with None => true | Some _ => false end.

(** Some country falls in the category. *)
Definition has_member (l : string) (rows : list map_row) : bool :=
  existsb (fun row => negb (is_placeholder row) && has_category l row) rows.

(** The values the two binners classify, one per record: the total damage
    and the number of disasters of the record's country. *)
Definition damage_by_country (data : list record) : list (option Z) :=
  map (fun r => Some (group_sum data country total_damage (country r))) data.

Definition disasters_by_country (data : list record) : list (option Z) :=
  map (fun r => Some (Z.of_nat (List.length
                                  (filter (fun r' => country r' =? country r)%string data))))
      data.

(** The binner property at one output: the label list is the whole table;
    every country of the input has rows and all of them carry one and the
    same label of the table; and a label has a synthesised row, exactly one,
    of the value [fill] and without country, iff no country falls in it. *)
Definition binner_property (fill : Z) (data : list record) (labels : list string)
  (out : choropleth) : Prop :=
  category_orders out = labels
  /\ (forall r, In r data ->
        exists l, In l labels
          /\ (exists row, In row (chart_rows out) /\ row_country row = Some (country r))
          /\ forall row, In row (chart_rows out) ->
               row_country row = Some (country r) -> row_category row = Some l)
  /\ (forall l, In l labels ->
        filter (fun row => is_placeholder row && has_category l row) (chart_rows out)
        = if has_member l (chart_rows out) then [] else [placeholder fill l]).

(** The table covers every value from zero on. *)
Definition covers (bins : list edge) (labels : list string) : Prop :=
  forall v, 0 <= v -> exists l, cut bins labels (Some v) = Some l /\ In l labels.

(** What every boundary table provides. *)
Definition table_ok (table : list edge * list string) : Prop :=
  covers (fst table) (snd table)
  /\ NoDup (snd table)
  /\ exists colors, category_color (snd table) = Ok colors.

Definition nonnegative (x : option Z) : Prop :=
  match x with Some v => 0 <= v | None => True end.

(** ** Further readings of the code *)

Definition null_month (r : record) : bool :=
  match month r with None => true | Some _ => false end.

(** Every outcome of [store_data]: a year list of one element cannot be
    indexed, a null month cannot be cast when months are selected, and
    otherwise the matching rows are returned. *)
Definition store_data_result (c : criteria) (data : store) : result (list record) :=
  match selected_year c with
  | Some [_] => Raise IndexError
  | _ =>
      match chosen (selected_month c) with
      | Some _ =>
          if existsb null_month data then Raise IntCastingNaNError
          else Ok (filter (matches c) data)
      | None => Ok (filter (matches c) data)
      end
  end.

(** The store after a series of filter calls. *)
Definition store_after (calls : list criteria) (data : store) : store :=
  fold_left (fun st c => fst (store_data c st)) calls data.


(** The label of the first bin whose upper edge is not below the value. *)
Fixpoint first_upto (uppers : list edge) (labels : list string) (v : Z) : option string :=
  match uppers, labels with
  | hi :: uppers', l :: labels' =>
      if le_edge v hi then Some l else first_upto uppers' labels' v
  | _, _ => None
  end.

Definition bucket (table : list edge * list string) (v : Z) : option string :=
  if v <? 0 then None else first_upto (tl (fst table)) (snd table) v.

(** ** Fixtures *)

Definition flood_japan_2010 : record :=
  {| id := "2010-0001-JPN"; country := "Japan"; region := "Asia";
     subregion := "Eastern Asia"; type := "Flood"; year := 2010; month := Some 3;
     total_deaths := Some 10; total_affected := Some 100;
     total_damage := Some 5000; last_update := Some (Build_date 2023 9 25) |}.

Definition flood_france_2010 : record :=
  {| id := "2010-0002-FRA"; country := "France"; region := "Europe";
     subregion := "Western Europe"; type := "Flood"; year := 2010; month := Some 7;
     total_deaths := Some 2; total_affected := None;
     total_damage := Some 2000000; last_update := Some (Build_date 2023 9 26) |}.

Definition storm_japan_2011 : record :=
  {| id := "2011-0003-JPN"; country := "Japan"; region := "Asia";
     subregion := "Eastern Asia"; type := "Storm"; year := 2011; month := Some 3;
     total_deaths := None; total_affected := Some 7;
     total_damage := None; last_update := None |}.

Definition quake_chile_2010 : record :=
  {| id := "2010-0004-CHL"; country := "Chile"; region := "Americas";
     subregion := "South America"; type := "Earthquake"; year := 2010; month := Some 2;
     total_deaths := Some 500; total_affected := Some 9;
     total_damage := Some 30000000; last_update := Some (Build_date 2023 1 2) |}.

Definition flood_india_2012 : record :=
  {| id := "2012-0005-IND"; country := "India"; region := "Asia";
     subregion := "Southern Asia"; type := "Flood"; year := 2012; month := Some 6;
     total_deaths := Some 40; total_affected := Some 1;
     total_damage := Some 700; last_update := Some (Build_date 2022 12 31) |}.

Definition fixture : store :=
  [flood_japan_2010; flood_france_2010; storm_japan_2011; quake_chile_2010;
   flood_india_2012].

(** A record whose year has five digits. *)
Definition flood_japan_20000 : record :=
  {| id := "20000-0001-JPN"; country := "Japan"; region := "Asia";
     subregion := "Eastern Asia"; type := "Flood"; year := 20000; month := Some 3;
     total_deaths := Some 1; total_affected := Some 1;
     total_damage := Some 1; last_update := None |}.

(** A record whose month is null. *)
Definition storm_fiji_2016 : record :=
  {| id := "2016-0006-FJI"; country := "Fiji"; region := "Oceania";
     subregion := "Melanesia"; type := "Storm"; year := 2016; month := None;
     total_deaths := Some 44; total_affected := Some 540000;
     total_damage := Some 600000; last_update := Some (Build_date 2023 9 25) |}.

Definition no_criteria : criteria :=
  {| selected_continent := None; selected_subregion := None;
     selected_country := None; selected_year := None;
     selected_month := None; selected_disaster_type := None |}.

(** The slider at its default range, nothing else selected. *)
Definition default_years : criteria :=
  {| selected_continent := None; selected_subregion := None;
     selected_country := None; selected_year := Some [2000; 2024];
     selected_month := None; selected_disaster_type := None |}.

(** Floods of 2010. *)
Definition floods_2010 : criteria :=
  {| selected_continent := None; selected_subregion := None;
     selected_country := None; selected_year := Some [2010; 2010];
     selected_month := None; selected_disaster_type := Some ["Flood"] |}.

(** March, in the default range. *)
Definition march : criteria :=
  {| selected_continent := None; selected_subregion := None;
     selected_country := None; selected_year := Some [2000; 2024];
     selected_month := Some [3]; selected_disaster_type := None |}.

(** Droughts only: no record of the fixture matches. *)
Definition droughts : criteria :=
  {| selected_continent := None; selected_subregion := None;
     selected_country := None; selected_year := Some [2000; 2024];
     selected_month := None; selected_disaster_type := Some ["Drought"] |}.

(** * Properties *)

(** ** Text and list facts *)

Lemma isin_In (x : string) (xs : list string) : isin x xs = true <-> In x xs.
Proof.
  unfold isin. rewrite existsb_exists. split.
  - intros [y [Hy Heq]]. apply String.eqb_eq in Heq. now subst.
  - intros H. exists x. split; [assumption | apply String.eqb_refl].
Qed.

Lemma isin_false (x : string) (xs : list string) : isin x xs = false <-> ~ In x xs.
Proof.
  rewrite <- isin_In. destruct (isin x xs); split; congruence.
Qed.

Lemma unique_acc_In (xs seen : list string) (x : string) :
  In x (unique_acc seen xs) <-> In x xs /\ ~ In x seen.
Proof.
  revert seen. induction xs as [| y ys IH]; intros seen; simpl.
  - tauto.
  - destruct (isin y seen) eqn:E.
    + apply isin_In in E. rewrite IH. split.
      * tauto.
      * intros [[-> | H] Hn]; tauto.
    + apply isin_false in E. simpl. rewrite IH. simpl. split.
      * intros [-> | [H Hn]]; tauto.
      * intros [[-> | H] Hn]; [now left |].
        destruct (String.eqb_spec y x); [now left | right; tauto].
Qed.

Lemma unique_acc_NoDup (xs seen : list string) : NoDup (unique_acc seen xs).
Proof.
  revert seen. induction xs as [| y ys IH]; intros seen; simpl.
  - constructor.
  - destruct (isin y seen); [apply IH |].
    constructor; [| apply IH].
    rewrite unique_acc_In. simpl. tauto.
Qed.

Lemma unique_In (xs : list string) (x : string) : In x (unique xs) <-> In x xs.
Proof. unfold unique. rewrite unique_acc_In. simpl. tauto. Qed.

Lemma unique_NoDup (xs : list string) : NoDup (unique xs).
Proof. apply unique_acc_NoDup. Qed.

Lemma sorted_Permutation (xs : list string) : Permutation xs (sorted xs).
Proof. apply StringSort.Permuted_sort. Qed.

Lemma sorted_In (xs : list string) (x : string) : In x (sorted xs) <-> In x xs.
Proof.
  split; apply Permutation_in;
    [apply Permutation_sym |]; apply sorted_Permutation.
Qed.

Lemma sorted_NoDup (xs : list string) : NoDup xs -> NoDup (sorted xs).
Proof. apply Permutation_NoDup, sorted_Permutation. Qed.

Lemma sorted_Sorted (xs : list string) :
  Sorted (fun a b => String.leb a b = true) (sorted xs).
Proof. apply StringSort.Sorted_sort. Qed.

(** ** Masks *)

Lemma repeat_true_map {A : Type} (rows : list A) :
  repeat true (List.length rows) = map (fun _ => true) rows.
Proof. induction rows; simpl; congruence. Qed.

Lemma mask_and_map {A : Type} (p q : A -> bool) (rows : list A) :
  mask_and (map p rows) (map q rows) = map (fun r => p r && q r) rows.
Proof.
  unfold mask_and. induction rows; simpl; congruence.
Qed.

Lemma select_map {A : Type} (p : A -> bool) (rows : list A) :
  select rows (map p rows) = filter p rows.
Proof.
  unfold select. induction rows as [| r rows IH]; simpl; [reflexivity |].
  destruct (p r); simpl; congruence.
Qed.

(** ** The month cast *)

Lemma with_month_same (r : record) : with_month r (month r) = r.
Proof. now destruct r. Qed.

Lemma astype_int_Some (col : list (option Z)) (ms : list Z) :
  astype_int col = Ok ms -> col = map Some ms.
Proof.
  revert ms. induction col as [| [m |] col IH]; intros ms; simpl.
  - now intros [= <-].
  - destruct (astype_int col) as [ms' | e]; simpl; [| discriminate].
    intros [= <-]. simpl. now rewrite (IH ms').
  - discriminate.
Qed.

Lemma astype_int_total (col : list (option Z)) :
  Forall (fun m => m <> None) col -> exists ms, astype_int col = Ok ms.
Proof.
  induction 1 as [| [m |] col Hm _ [ms IH]]; simpl.
  - now exists [].
  - rewrite IH. simpl. now exists (m :: ms).
  - congruence.
Qed.

Lemma astype_int_None (col : list (option Z)) :
  In None col -> astype_int col = Raise IntCastingNaNError.
Proof.
  induction col as [| [m |] col IH]; simpl.
  - tauto.
  - intros [H | H]; [discriminate |]. now rewrite IH.
  - reflexivity.
Qed.

Lemma assign_month_same (data : store) (ms : list Z) :
  map month data = map Some ms -> assign_month data ms = data.
Proof.
  unfold assign_month. revert ms.
  induction data as [| r data IH]; intros [| m ms]; simpl; try discriminate.
  - reflexivity.
  - intros [= Hm Hrest]. rewrite (IH _ Hrest). f_equal.
    rewrite <- Hm. apply with_month_same.
Qed.

Lemma month_mask_map (data : store) (ms : list Z) (sel : list Z) :
  map month data = map Some ms ->
  map (fun m => isin_int m sel) ms =
  map (fun r => match month r with Some v => isin_int v sel | None => false end) data.
Proof.
  revert ms. induction data as [| r data IH]; intros [| m ms]; simpl; try discriminate.
  - reflexivity.
  - intros [= Hm Hrest]. rewrite Hm. f_equal. now apply IH.
Qed.

(** ** The filter callback, step by step *)

(** Whatever the criteria, the call hands back the store it was given. *)
Lemma store_data_store (c : criteria) (data : store) : fst (store_data c data) = data.
Proof.
  unfold store_data.
  destruct (chosen (selected_year c)) as [ys |]; simpl.
  - destruct (getitem ys 0) as [lo | e]; simpl; [| reflexivity].
    destruct (getitem ys 1) as [hi | e]; simpl; [| reflexivity].
    destruct (chosen (selected_month c)) as [sel |]; simpl; [| reflexivity].
    destruct (astype_int (map month data)) as [ms |] eqn:E; simpl; [| reflexivity].
    apply assign_month_same. now apply astype_int_Some.
  - destruct (chosen (selected_month c)) as [sel |]; simpl; [| reflexivity].
    destruct (astype_int (map month data)) as [ms |] eqn:E; simpl; [| reflexivity].
    apply assign_month_same. now apply astype_int_Some.
Qed.

Lemma mask_step (sel : option (list string)) (p : record -> bool)
  (f : record -> string) (data : store) :
  match chosen sel with
  | Some s => mask_and (map p data) (map (fun r => isin (f r) s) data)
  | None => map p data
  end = map (fun r => p r && within sel (f r)) data.
Proof.
  destruct sel as [[| y ys] |]; simpl;
    try (apply map_ext; intros r; now rewrite andb_true_r).
  apply mask_and_map.
Qed.

Lemma month_within_chosen (sel : option (list Z)) (s : list Z) (m : option Z) :
  chosen sel = Some s ->
  month_within sel m = match m with Some v => isin_int v s | None => false end.
Proof. destruct sel as [[| y ys] |]; simpl; intros [= <-]; reflexivity. Qed.

Lemma month_within_unchosen (sel : option (list Z)) (m : option Z) :
  chosen sel = None -> month_within sel m = true.
Proof. destruct sel as [[| y ys] |]; simpl; intros; congruence. Qed.

(** With a well-formed year selection and a month column that can be cast,
    the call returns the rows that match, in store order. *)
Lemma store_data_returns (c : criteria) (data : store) :
  (forall y, selected_year c <> Some [y]) ->
  month_cast_ok data (selected_month c) ->
  snd (store_data c data) = Ok (filter (matches c) data).
Proof.
  intros Hy1 Hm. unfold store_data.
  rewrite repeat_true_map, !mask_step.
  set (p := fun r : record => _ && within (selected_country c) (country r)).
  assert (Hyear :
    match chosen (selected_year c) with
    | Some sel =>
        lo <- getitem sel 0 ;; hi <- getitem sel 1 ;;
        Ok (mask_and (map p data)
              (map (fun r => String.leb (str lo) (year_text r)
                             && String.leb (year_text r) (str hi)) data))
    | None => Ok (map p data)
    end = Ok (map (fun r => p r && year_text_within (selected_year c) (year r)) data)).
  { destruct (selected_year c) as [[| lo [| hi rest]] |]; simpl.
    - f_equal. apply map_ext. intros r. now rewrite andb_true_r.
    - now destruct (Hy1 lo).
    - unfold getitem; simpl. now rewrite mask_and_map.
    - f_equal. apply map_ext. intros r. now rewrite andb_true_r. }
  rewrite Hyear. clear Hyear.
  set (q := fun r : record => p r && year_text_within (selected_year c) (year r)).
  destruct (chosen (selected_month c)) as [sel |] eqn:Hsel.
  - destruct Hm as [Hm | Hm]; [congruence |].
    destruct (astype_int_total (map month data)) as [ms Hms].
    { rewrite Forall_map. exact Hm. }
    rewrite Hms. simpl.
    apply astype_int_Some in Hms.
    rewrite (assign_month_same _ _ Hms), (month_mask_map _ _ sel Hms).
    rewrite mask_and_map, mask_step, select_map. simpl. f_equal.
    apply filter_ext. intros r. unfold matches, q, p.
    rewrite (month_within_chosen _ _ _ Hsel). reflexivity.
  - simpl. rewrite mask_step, select_map. f_equal.
    apply filter_ext. intros r. unfold matches, q, p.
    rewrite (month_within_unchosen _ _ Hsel), andb_true_r. reflexivity.
Qed.

(** ** Years as text *)

Lemma str_four_digits_check :
  forallb (fun k => (str (1000 + Z.of_nat k) =? four_digits (1000 + Z.of_nat k))%string)
          (seq 0 (Z.to_nat 9000)) = true.
Proof. vm_compute. reflexivity. Qed.

Lemma str_four_digits (n : Z) : four_digit n -> str n = four_digits n.
Proof.
  intros [Hlo Hhi].
  pose proof str_four_digits_check as H.
  rewrite forallb_forall in H.
  specialize (H (Z.to_nat (n - 1000))).
  replace (1000 + Z.of_nat (Z.to_nat (n - 1000))) with n in H by lia.
  apply String.eqb_eq, H, in_seq. lia.
Qed.

Lemma digit_compare (x y : Z) :
  0 <= x <= 9 -> 0 <= y <= 9 -> Ascii.compare (digit x) (digit y) = (x ?= y).
Proof.
  intros Hx Hy.
  assert (Ex : x = 0 \/ x = 1 \/ x = 2 \/ x = 3 \/ x = 4 \/ x = 5 \/ x = 6
               \/ x = 7 \/ x = 8 \/ x = 9) by lia.
  assert (Ey : y = 0 \/ y = 1 \/ y = 2 \/ y = 3 \/ y = 4 \/ y = 5 \/ y = 6
               \/ y = 7 \/ y = 8 \/ y = 9) by lia.
  repeat (destruct Ex as [-> | Ex]); try subst x;
    repeat (destruct Ey as [-> | Ey]); try subst y; reflexivity.
Qed.

(** On four-digit years the order of the texts is the order of the numbers. *)
Lemma str_leb_four_digit (a b : Z) :
  four_digit a -> four_digit b -> String.leb (str a) (str b) = (a <=? b).
Proof.
  intros Ha Hb. rewrite (str_four_digits a Ha), (str_four_digits b Hb).
  unfold four_digit in *. unfold String.leb, four_digits. simpl String.compare.
  rewrite !digit_compare by (Z.div_mod_to_equations; lia).
  assert (Ea : a = 1000 * (a / 1000) + 100 * (a / 100 mod 10)
                   + 10 * (a / 10 mod 10) + a mod 10)
    by (Z.div_mod_to_equations; lia).
  assert (Eb : b = 1000 * (b / 1000) + 100 * (b / 100 mod 10)
                   + 10 * (b / 10 mod 10) + b mod 10)
    by (Z.div_mod_to_equations; lia).
  pose proof (Z.mod_pos_bound (a / 100) 10 ltac:(lia)).
  pose proof (Z.mod_pos_bound (a / 10) 10 ltac:(lia)).
  pose proof (Z.mod_pos_bound a 10 ltac:(lia)).
  pose proof (Z.mod_pos_bound (b / 100) 10 ltac:(lia)).
  pose proof (Z.mod_pos_bound (b / 10) 10 ltac:(lia)).
  pose proof (Z.mod_pos_bound b 10 ltac:(lia)).
  generalize dependent (a / 1000). generalize dependent (a / 100 mod 10).
  generalize dependent (a / 10 mod 10). generalize dependent (a mod 10).
  generalize dependent (b / 1000). generalize dependent (b / 100 mod 10).
  generalize dependent (b / 10 mod 10). generalize dependent (b mod 10).
  intros b0 Hb0 b1 Hb1 b2 Hb2 b3 Eb a0 Ha0 a1 Ha1 a2 Ha2 a3 Ea.
  destruct (Z.compare_spec a3 b3); [| symmetry; apply Z.leb_le; lia
                                    | symmetry; apply Z.leb_gt; lia].
  destruct (Z.compare_spec a2 b2); [| symmetry; apply Z.leb_le; lia
                                    | symmetry; apply Z.leb_gt; lia].
  destruct (Z.compare_spec a1 b1); [| symmetry; apply Z.leb_le; lia
                                    | symmetry; apply Z.leb_gt; lia].
  destruct (Z.compare_spec a0 b0); symmetry;
    [apply Z.leb_le | apply Z.leb_le | apply Z.leb_gt]; lia.
Qed.

(** ** The filter engine *)

Lemma matches_satisfies (c : criteria) (r : record) :
  year_selection_ok (selected_year c) -> four_digit (year r) ->
  matches c r = satisfies c r.
Proof.
  intros Hc Hr. unfold matches, satisfies. do 2 f_equal.
  f_equal. destruct (selected_year c) as [[| lo [| hi rest]] |]; simpl in *;
    try reflexivity.
  destruct Hc as [Hlo Hhi]. now rewrite !str_leb_four_digit.
Qed.

Lemma filter_idempotent {A : Type} (f : A -> bool) (l : list A) :
  filter f (filter f l) = filter f l.
Proof. apply forallb_filter_id, forallb_filter. Qed.

(** C1, as amended: for every store whose years are written with four
    digits and every criteria whose year selection is absent or holds two
    four-digit bounds, and provided no month is selected or no stored month
    is null, [store_data] returns; every returned record is a stored record;
    a stored record is returned iff it satisfies every non-empty criterion
    field (AND across the dimensions, membership within one, the year range
    inclusive on both ends); and applying the same criteria to the result
    returns the result. *)
Theorem store_data_filter (data : store) (c : criteria) :
  Forall (fun r => four_digit (year r)) data ->
  year_selection_ok (selected_year c) ->
  month_cast_ok data (selected_month c) ->
  filter_property data c /\
  (forall out, snd (store_data c data) = Ok out -> incl out data).
Proof.
  intros Hdata Hc Hm.
  assert (Hmatch : forall l, Forall (fun r => four_digit (year r)) l ->
                             filter (matches c) l = filter (satisfies c) l).
  { intros l Hl. apply filter_ext_in. intros r Hr.
    apply matches_satisfies; [assumption |].
    rewrite Forall_forall in Hl. now apply Hl. }
  assert (Hret : forall l, Forall (fun r => four_digit (year r)) l ->
                           month_cast_ok l (selected_month c) ->
                           snd (store_data c l) = Ok (filter (satisfies c) l)).
  { intros l Hl Hml. rewrite <- (Hmatch l Hl).
    apply store_data_returns; [| assumption].
    intros y E. rewrite E in Hc. exact Hc. }
  assert (Hout : Forall (fun r => four_digit (year r)) (filter (satisfies c) data)).
  { rewrite Forall_forall in *. intros r Hr. apply filter_In in Hr. now apply Hdata. }
  assert (Hmout : month_cast_ok (filter (satisfies c) data) (selected_month c)).
  { destruct Hm as [Hm | Hm]; [now left | right].
    rewrite Forall_forall in *. intros r Hr. apply filter_In in Hr. now apply Hm. }
  split.
  - exists (filter (satisfies c) data). split; [now apply Hret |]. split.
    + intros r. apply filter_In.
    + rewrite (Hret _ Hout Hmout). now rewrite filter_idempotent.
  - intros out. rewrite (Hret _ Hdata Hm). intros [= <-] r Hr.
    now apply filter_In in Hr.
Qed.

Lemma store_data_filter_witness :
  Forall (fun r => four_digit (year r)) fixture
  /\ year_selection_ok (selected_year march)
  /\ month_cast_ok fixture (selected_month march)
  /\ filter_property fixture march
  /\ (forall out, snd (store_data march fixture) = Ok out -> incl out fixture).
Proof.
  assert (H1 : Forall (fun r => four_digit (year r)) fixture)
    by (repeat constructor; simpl; lia).
  assert (H2 : year_selection_ok (selected_year march))
    by (simpl; unfold four_digit; lia).
  assert (H3 : month_cast_ok fixture (selected_month march))
    by (right; repeat constructor; discriminate).
  split; [exact H1 |]. split; [exact H2 |]. split; [exact H3 |].
  exact (store_data_filter fixture march H1 H2 H3).
Defined.

(** C1, as stated, fails: the year test is made on the texts of the years,
    so a record of the year 20000 passes the range 2000 to 2024. *)
Lemma store_data_year_text_counterexample :
  ~ filter_property [flood_japan_20000] default_years.
Proof.
  intros [out [Hret [Hiff _]]].
  vm_compute in Hret. injection Hret as <-.
  destruct (Hiff flood_japan_20000) as [H _].
  destruct (H (or_introl eq_refl)) as [_ Hs].
  vm_compute in Hs. discriminate.
Qed.

Example store_data_floods_2010 :
  snd (store_data floods_2010 fixture) = Ok [flood_japan_2010; flood_france_2010].
Proof. reflexivity. Qed.

Example store_data_nothing_matches :
  snd (store_data droughts fixture) = Ok [].
Proof. reflexivity. Qed.

(** An unrestricted filter returns the whole store. *)
Lemma store_data_no_criteria (data : store) : store_data no_criteria data = (data, Ok data).
Proof.
  rewrite (surjective_pairing (store_data no_criteria data)).
  rewrite store_data_store, store_data_returns.
  - now rewrite filter_true.
  - discriminate.
  - now left.
Qed.

(** ** The store across filter calls *)

Lemma store_data_repeat (c c' : criteria) (data : store) :
  store_data c' (fst (store_data c data)) = store_data c' data.
Proof. now rewrite store_data_store. Qed.

(** When a month is selected and a stored month is null, the cast of the
    month column raises and the call returns nothing. *)
Lemma store_data_null_month_raises (c : criteria) (data : store) (sel : list Z) :
  year_selection_ok (selected_year c) ->
  chosen (selected_month c) = Some sel ->
  In None (map month data) ->
  store_data c data = (data, Raise IntCastingNaNError).
Proof.
  intros Hy Hsel Hnull. unfold store_data. rewrite Hsel, (astype_int_None _ Hnull).
  destruct (selected_year c) as [[| lo [| hi rest]] |]; simpl in *;
    reflexivity || contradiction.
Qed.

(** C3: the call that selects March on a store holding a record without a
    month raises instead of returning a subset; the store is the same after
    the call, and a later call finds it as it was. *)
Theorem store_data_null_month :
  store_data march [flood_japan_2010; storm_fiji_2016]
  = ([flood_japan_2010; storm_fiji_2016], Raise IntCastingNaNError)
  /\ store_data no_criteria (fst (store_data march [flood_japan_2010; storm_fiji_2016]))
     = ([flood_japan_2010; storm_fiji_2016], Ok [flood_japan_2010; storm_fiji_2016]).
Proof. split; reflexivity. Qed.

(** ** Cascading options *)

(** C4, as amended: for a non-empty continent selection the options are
    the distinct subregions of the records whose continent is selected, each
    once; for an empty or absent selection there is no option. *)
Theorem update_subregions_options (data : store) :
  update_subregions data None = []
  /\ update_subregions data (Some []) = []
  /\ forall y ys, exists l,
       update_subregions data (Some (y :: ys)) = map option_of l
       /\ NoDup l
       /\ forall x, In x l <->
                    exists r, In r data /\ In (region r) (y :: ys) /\ subregion r = x.
Proof.
  split; [reflexivity |]. split; [reflexivity |].
  intros y ys. eexists. split; [reflexivity |]. split; [apply unique_NoDup |].
  intros x. rewrite unique_In, in_map_iff. split.
  - intros [r [Hx Hr]]. apply filter_In in Hr. destruct Hr as [Hr Hreg].
    apply isin_In in Hreg. now exists r.
  - intros [r [Hr [Hreg Hx]]]. exists r. split; [assumption |].
    apply filter_In. split; [assumption |]. now apply isin_In.
Qed.

(** C4, as stated, fails: with no continent selected the callback offers
    no subregion, where the claim has every subregion of the store. *)
Lemma update_subregions_empty_counterexample :
  update_subregions fixture None <> map option_of (subregionsFor fixture None).
Proof. vm_compute. discriminate. Qed.

Example subregionsFor_fixture :
  subregionsFor fixture None
  = ["Eastern Asia"; "South America"; "Southern Asia"; "Western Europe"].
Proof. reflexivity. Qed.

(** The options come in order of first appearance in the store, while the
    country options are sorted. *)
Example update_subregions_order :
  update_subregions fixture (Some ["Europe"; "Asia"])
  = map option_of ["Eastern Asia"; "Western Europe"; "Southern Asia"]
  /\ update_countries fixture (Some ["Europe"; "Asia"]) None
     = map option_of ["France"; "India"; "Japan"].
Proof. split; reflexivity. Qed.

(** ** Reset *)

(** C10: whatever the click count, the reset returns no continent, no
    subregion, no country, the years 2000 to 2024, no month, and the list of
    the disaster types of the data set: sorted, each type once, and every
    type that occurs. *)
Theorem reset_filters_constant (data : store) (n_clicks : option Z) :
  reset_filters data n_clicks
  = {| selected_continent := None; selected_subregion := None;
       selected_country := None; selected_year := Some [2000; 2024];
       selected_month := None;
       selected_disaster_type := Some (disaster_types data) |}
  /\ Sorted (fun a b => String.leb a b = true) (disaster_types data)
  /\ NoDup (disaster_types data)
  /\ forall t, In t (disaster_types data) <-> exists r, In r data /\ type r = t.
Proof.
  split; [reflexivity |]. unfold disaster_types.
  split; [apply sorted_Sorted |].
  split; [apply sorted_NoDup, unique_NoDup |].
  intros t. rewrite sorted_In, unique_In, in_map_iff. split.
  - intros [r [Ht Hr]]. now exists r.
  - intros [r [Hr Ht]]. now exists r.
Qed.

Example reset_filters_fixture :
  reset_filters fixture (Some 3) = reset_filters fixture None
  /\ selected_disaster_type (reset_filters fixture None)
     = Some ["Earthquake"; "Flood"; "Storm"].
Proof. split; reflexivity. Qed.

(** ** Header formatter *)

Lemma append_assoc (a b c : string) : (a ++ b) ++ c = a ++ b ++ c.
Proof. induction a as [| x a IH]; simpl; congruence. Qed.

Lemma append_nil_r (a : string) : a ++ "" = a.
Proof. induction a as [| x a IH]; simpl; congruence. Qed.

Lemma dict_get_month_map (m : Z) :
  1 <= m <= 12 -> dict_get month_map m = Ok (month_name m).
Proof.
  intros H.
  assert (E : m = 1 \/ m = 2 \/ m = 3 \/ m = 4 \/ m = 5 \/ m = 6 \/ m = 7
              \/ m = 8 \/ m = 9 \/ m = 10 \/ m = 11 \/ m = 12) by lia.
  repeat (destruct E as [-> | E]); try subst m; reflexivity.
Qed.

Lemma generate_header_types (header_text : string) (ds : list string) :
  match ds with
  | [a] => header_text ++ a
  | [a; b] => header_text ++ a ++ " and " ++ b
  | _ => header_text ++ "disasters"
  end = header_text ++ types_phrase ds.
Proof. destruct ds as [| a [| b [| c ds]]]; reflexivity. Qed.

(** C8: for every base text, list of disaster types, year range and
    optional month code from 1 to 12, the header is the base text followed
    by the type phrase (the one type; the two types joined by "and";
    "disasters" for none or for three and more), the year phrase ("in" the
    year when the range starts and ends on it, start "to" end otherwise) and,
    when a month is given, "in" and its English name. *)
Theorem generate_header_describes (baseText : string) (disasterTypes : list string)
  (start stop : Z) (month : option Z) :
  (forall m, month = Some m -> 1 <= m <= 12) ->
  generate_header baseText disasterTypes (YearList [start; stop]) (month_code month)
  = Ok (describeSelection baseText disasterTypes (start, stop) month)
  /\ (forall a, disasterTypes = [a] -> types_phrase disasterTypes = a)
  /\ (forall a b, disasterTypes = [a; b] ->
                  types_phrase disasterTypes = a ++ " and " ++ b)
  /\ (List.length disasterTypes = 0%nat \/ (3 <= List.length disasterTypes)%nat ->
      types_phrase disasterTypes = "disasters")
  /\ (start = stop -> years_phrase start stop = " in " ++ str start)
  /\ (start <> stop -> years_phrase start stop = ", " ++ str start ++ " to " ++ str stop).
Proof.
  intros Hm. split.
  - unfold generate_header, describeSelection. rewrite generate_header_types.
    assert (E : month = None \/ month = Some 1 \/ month = Some 2 \/ month = Some 3
                \/ month = Some 4 \/ month = Some 5 \/ month = Some 6
                \/ month = Some 7 \/ month = Some 8 \/ month = Some 9
                \/ month = Some 10 \/ month = Some 11 \/ month = Some 12).
    { destruct month as [m |]; [| now left]. specialize (Hm m eq_refl).
      assert (m = 1 \/ m = 2 \/ m = 3 \/ m = 4 \/ m = 5 \/ m = 6 \/ m = 7
              \/ m = 8 \/ m = 9 \/ m = 10 \/ m = 11 \/ m = 12) as H by lia.
      right. repeat (destruct H as [-> | H]); try subst m; tauto. }
    unfold years_phrase.
    repeat (destruct E as [-> | E]); try subst month;
      cbn -[append str types_phrase]; destruct (start =? stop);
      cbn -[append str types_phrase]; rewrite ?append_assoc, ?append_nil_r;
      reflexivity.
  - repeat split.
    + now intros a ->.
    + now intros a b ->.
    + unfold types_phrase. intros [-> | H]; [reflexivity |].
      destruct (List.length disasterTypes) as [| [| [| n]]]; try lia. reflexivity.
    + unfold years_phrase. intros ->. now rewrite Z.eqb_refl.
    + unfold years_phrase. intros H. apply Z.eqb_neq in H. now rewrite H.
Qed.

Lemma generate_header_describes_witness :
  (forall m, Some 3 = Some m -> 1 <= m <= 12)
  /\ generate_header "Total number of " ["Flood"] (YearList [2010; 2010])
       (month_code (Some 3))
     = Ok "Total number of Flood in 2010 in March".
Proof.
  assert (H : forall m, Some 3 = Some m -> 1 <= m <= 12)
    by (intros m [= <-]; lia).
  split; [exact H |].
  exact (proj1 (generate_header_describes "Total number of " ["Flood"] 2010 2010
                  (Some 3) H)).
Defined.

Example generate_header_trends :
  generate_header "Trends of " ["Flood"; "Storm"] (YearList [2005; 2010]) MonthNone
  = Ok "Trends of Flood and Storm, 2005 to 2010".
Proof. reflexivity. Qed.

(** The month dropdown is multi-valued: the list it yields is no key of
    the month table. *)
Example generate_header_month_list :
  generate_header "Trends of " ["Flood"] (YearList [2005; 2010]) (MonthList [3])
  = Raise TypeError.
Proof. reflexivity. Qed.

(** ** Value formatter *)









(** The rounding to one decimal is made on the binary64 quotient, and a
    float is compared by its exact value. *)
Example format_value_roundings :
  format_value (Some (PyInt 1150)) = Ok "1.1K"
  /\ format_value (Some (PyInt 1250)) = Ok "1.2K"
  /\ format_value (Some (PyInt 999950)) = Ok "1000.0K"
  /\ format_value (Some (PyFloat (quotient 1999 2))) = Ok "1000"
  /\ format_value (Some (PyFloat (quotient 552 3))) = Ok "184"
  /\ format_value (Some (PyFloat S754_nan)) = Ok "nanB".
Proof. repeat split; vm_compute; reflexivity. Qed.

(** ** Years back from their text *)

Lemma int_of_str_str (y : Z) : int_of_str (str y) = Ok y.
Proof.
  unfold int_of_str, str. rewrite NilZero.isi.
  - now rewrite DecimalZ.of_to.
  - destruct y; simpl; try discriminate. intros [= H].
    now apply DecimalPos.Unsigned.to_uint_nonnil in H.
  - destruct y; simpl; try discriminate. intros [= H].
    now apply DecimalPos.Unsigned.to_uint_nonnil in H.
Qed.

Lemma str_inj (a b : Z) : str a = str b -> a = b.
Proof.
  intros H. pose proof (int_of_str_str a) as Ha. rewrite H, int_of_str_str in Ha.
  congruence.
Qed.

Lemma traverse_int_of_str (ys : list Z) : traverse int_of_str (map str ys) = Ok ys.
Proof.
  induction ys as [| y ys IH]; simpl; [reflexivity |].
  now rewrite int_of_str_str, IH.
Qed.

(** ** Aggregation facts *)

Lemma column_nonempty {A : Type} (f : frame) (name : string) (cell : record -> A) :
  f <> [] -> column f name cell = Ok (map cell f).
Proof. destruct f; [congruence | reflexivity]. Qed.

Lemma groupby_sum_nonempty (f : frame) (name : string) (key : record -> string)
  (cell : record -> option Z) :
  f <> [] ->
  groupby_sum f name key cell
  = Ok (map (fun k => (k, group_sum f key cell k)) (sorted (unique (map key f)))).
Proof. intros H. unfold groupby_sum. now rewrite column_nonempty. Qed.

Lemma group_keys_In (f : frame) (key : record -> string) (k : string) :
  In k (sorted (unique (map key f))) <-> exists r, In r f /\ key r = k.
Proof.
  rewrite sorted_In, unique_In, in_map_iff. split; intros [r [H1 H2]]; now exists r.
Qed.

Lemma group_keys_NoDup (f : frame) (key : record -> string) :
  NoDup (sorted (unique (map key f))).
Proof. apply sorted_NoDup, unique_NoDup. Qed.

Lemma nansum_filter_split (cell : record -> option Z) (p q : record -> bool)
  (rows : list record) :
  (forall r, p r = true -> q r = false) ->
  nansum (map cell (filter (fun r => p r || q r) rows))
  = nansum (map cell (filter p rows)) + nansum (map cell (filter q rows)).
Proof.
  intros Hpq. induction rows as [| r rows IH]; simpl; [reflexivity |].
  destruct (p r) eqn:Ep; simpl.
  - rewrite (Hpq r Ep). simpl. destruct (cell r); lia.
  - destruct (q r); simpl; [destruct (cell r) |]; lia.
Qed.

Lemma filter_false {A : Type} (l : list A) : filter (fun _ => false) l = [].
Proof. induction l; simpl; auto. Qed.

(** The sums of the groups add up to the sum of the rows whose key is
    among the groups. *)
Lemma group_sums_total (f : frame) (key : record -> string) (cell : record -> option Z)
  (ks : list string) :
  NoDup ks ->
  total (map (group_sum f key cell) ks)
  = nansum (map cell (filter (fun r => isin (key r) ks) f)).
Proof.
  induction 1 as [| k ks Hk Hks IH]; simpl.
  - now rewrite filter_false.
  - rewrite IH. unfold group_sum. symmetry. apply nansum_filter_split.
    intros r Hr. apply String.eqb_eq in Hr. apply isin_false. now rewrite Hr.
Qed.

Lemma group_sums_all (f : frame) (key : record -> string) (cell : record -> option Z) :
  total (map (group_sum f key cell) (sorted (unique (map key f)))) = nansum (map cell f).
Proof.
  rewrite group_sums_total by apply group_keys_NoDup.
  f_equal. f_equal. apply forallb_filter_id, forallb_forall. intros r Hr.
  apply isin_In, group_keys_In. now exists r.
Qed.

(** The label of the largest value. *)
Lemma fold_best (s : list (string * Z)) (best : string * Z) :
  let r := fold_left (fun best kv => if snd best <? snd kv then kv else best) s best in
  (r = best \/ In r s) /\ snd best <= snd r /\ forall x, In x s -> snd x <= snd r.
Proof.
  revert best. induction s as [| kv s IH]; intros best; simpl.
  - split; [now left |]. split; [lia | tauto].
  - destruct (Z.ltb_spec (snd best) (snd kv)) as [Hlt | Hge].
    + destruct (IH kv) as [H1 [H2 H3]].
      split; [destruct H1 as [H1 | H1]; [right; left; now symmetry | tauto] |].
      split; [lia |].
      intros x [<- | Hx]; [assumption | now apply H3].
    + destruct (IH best) as [H1 [H2 H3]]. split; [tauto |]. split; [lia |].
      intros x [<- | Hx]; [lia | now apply H3].
Qed.

Lemma idxmax_largest (s : list (string * Z)) :
  s <> [] ->
  exists k v, idxmax s = Ok k /\ In (k, v) s /\ forall x, In x s -> snd x <= v.
Proof.
  destruct s as [| kv s]; [congruence |]. intros _.
  destruct (fold_best s kv) as [H1 [H2 H3]].
  set (r := fold_left _ s kv) in *.
  exists (fst r), (snd r). split; [reflexivity |]. split.
  - rewrite <- surjective_pairing. simpl.
    destruct H1 as [H1 | H1]; [left; symmetry; exact H1 | now right].
  - intros x [<- | Hx]; [assumption | now apply H3].
Qed.

(** On a frame with rows, the guarded expression names a country of the
    frame whose sum is the largest. *)
Lemma most_country_largest (f : frame) (cell : record -> option Z) :
  f <> [] ->
  exists c, most_country f cell = Ok c
            /\ (exists r, In r f /\ country r = c)
            /\ forall r, In r f ->
                 group_sum f country cell (country r) <= group_sum f country cell c.
Proof.
  intros Hf. unfold most_country.
  replace (empty f) with false by (destruct f; [congruence | reflexivity]).
  simpl. rewrite (groupby_sum_nonempty f _ _ _ Hf). simpl.
  destruct (idxmax_largest
              (map (fun k => (k, group_sum f country cell k))
                   (sorted (unique (map country f))))) as [k [v [Hk [Hin Hmax]]]].
  { destruct f as [| r f]; [congruence |]. intros E.
    assert (Hr : In (country r) (sorted (unique (map country (r :: f)))))
      by (apply group_keys_In; exists r; simpl; tauto).
    apply (in_map (fun k => (k, group_sum (r :: f) country cell k))) in Hr.
    rewrite E in Hr. exact Hr. }
  exists k. split; [assumption |].
  apply in_map_iff in Hin. destruct Hin as [k' [[= -> <-] Hk']].
  split; [now apply group_keys_In |].
  intros r Hr.
  apply (Hmax (country r, group_sum f country cell (country r))).
  apply in_map_iff. exists (country r). split; [reflexivity |].
  apply group_keys_In. now exists r.
Qed.

Lemma most_country_single (r : record) (cell : record -> option Z) :
  most_country [r] cell = Ok (country r).
Proof.
  destruct (most_country_largest [r] cell) as [c [Hc [[r' [[<- | []] <-]] _]]];
    [discriminate | assumption].
Qed.

(** ** Statistic cards *)

(** C6: when the filter leaves no record, [update_stat_cards] raises on its
    first column access, before the guarded expressions are reached; the
    guard itself yields "N/A" on an empty frame. *)
Theorem update_stat_cards_empty :
  snd (store_data droughts fixture) = Ok []
  /\ update_stat_cards [] = Raise (KeyError "last_update")
  /\ (forall cell, most_country (DataFrame []) cell = Ok "N/A").
Proof. repeat split. Qed.

Example update_stat_cards_fixture :
  update_stat_cards fixture
  = Ok {| total_deaths_str := "552";
          total_affected_str := "117";
          total_damage_str := "32,005,700 US$";
          most_deaths_country := "Chile";
          most_affected_country := "Japan";
          most_damaged_country := "Chile";
          last_updated_str := "Data last update: 2023-09-26" |}.
Proof. vm_compute. reflexivity. Qed.

(** ** Trend line *)

Lemma format_value_float (x : spec_float) :
  exists s, format_value (Some (PyFloat x)) = Ok s.
Proof.
  unfold format_value. simpl.
  repeat (destruct (float_lt_int x _)); simpl; eauto.
Qed.

Lemma texts_of_years (ks : list string) :
  (forall k, In k ks -> exists y, k = str y) -> exists ys, ks = map str ys.
Proof.
  induction ks as [| k ks IH]; intros H.
  - now exists [].
  - destruct (H k (or_introl eq_refl)) as [y ->].
    destruct IH as [ys ->]; [intros k' Hk'; apply H; now right |].
    now exists (y :: ys).
Qed.

Lemma group_years (f : frame) :
  exists ys, sorted (unique (map year_text f)) = map str ys.
Proof.
  apply texts_of_years. intros k Hk. apply group_keys_In in Hk.
  destruct Hk as [r [_ <-]]. now exists (year r).
Qed.

Lemma combine_map_self {A B : Type} (g : A -> B) (l : list A) :
  combine l (map g l) = map (fun x => (x, g x)) l.
Proof. induction l; simpl; congruence. Qed.

Lemma year_text_eqb (r : record) (y : Z) :
  (year_text r =? str y)%string = (year r =? y).
Proof.
  unfold year_text. destruct (Z.eqb_spec (year r) y) as [-> | Hne].
  - apply String.eqb_refl.
  - apply String.eqb_neq. intros H. now apply str_inj in H.
Qed.



(** The mean is taken over the years, not over the records: two records
    of one year give one point, and the line is at their sum. *)
Example plot_line_casualty_trend_mean :
  exists fig,
    plot_line_casualty_trend [flood_japan_2010; flood_france_2010] = Ok fig
    /\ points fig = [(2010, 12)]
    /\ hline fig = quotient 12 1
    /\ hline fig <> quotient 12 2.
Proof.
  eexists. split; [vm_compute; reflexivity |]. simpl.
  repeat split. vm_compute. discriminate.
Qed.

(** ** Choropleth binners on an empty subset *)

(** C5: when the filter leaves no record, both binners raise on the
    grouping by country; no bin is returned. *)
Theorem choropleth_empty :
  snd (store_data droughts fixture) = Ok []
  /\ mapA_damage_choropleth [] = Raise (KeyError "country")
  /\ mapB_disaster_count_choropleth [] = Raise (KeyError "country").
Proof. repeat split. Qed.

(** ** Choropleth binners *)

Ltac decide_comparisons :=
  repeat match goal with
    | |- context [?a <? ?b] =>
        first [ replace (a <? b) with true by (symmetry; apply Z.ltb_lt; lia)
              | replace (a <? b) with false by (symmetry; apply Z.ltb_ge; lia) ]
    | |- context [?a <=? ?b] =>
        first [ replace (a <=? b) with true by (symmetry; apply Z.leb_le; lia)
              | replace (a <=? b) with false by (symmetry; apply Z.leb_gt; lia) ]
    | |- context [?a =? ?b] =>
        first [ replace (a =? b) with true by (symmetry; apply Z.eqb_eq; lia)
              | replace (a =? b) with false by (symmetry; apply Z.eqb_neq; lia) ]
    end.

Ltac covers_case :=
  unfold cut, cut_from, edge_lt, edge_eq, le_edge; decide_comparisons;
  cbn [orb andb]; eexists; split; [reflexivity | simpl; tauto].

Lemma covers_five (t1 t2 t3 t4 : Z) (l1 l2 l3 l4 l5 : string) :
  0 < t1 < t2 -> t2 < t3 < t4 ->
  covers [Fin 0; Fin t1; Fin t2; Fin t3; Fin t4; Inf] [l1; l2; l3; l4; l5].
Proof.
  intros H12 H34 v Hv.
  assert (C : v = 0 \/ 0 < v <= t1 \/ t1 < v <= t2 \/ t2 < v <= t3
              \/ t3 < v <= t4 \/ t4 < v) by lia.
  destruct C as [C | [C | [C | [C | [C | C]]]]]; covers_case.
Qed.

Lemma covers_four (t1 t2 t3 : Z) (l1 l2 l3 l4 : string) :
  0 < t1 < t2 -> t2 < t3 ->
  covers [Fin 0; Fin t1; Fin t2; Fin t3; Inf] [l1; l2; l3; l4].
Proof.
  intros H12 H3 v Hv.
  assert (C : v = 0 \/ 0 < v <= t1 \/ t1 < v <= t2 \/ t2 < v <= t3 \/ t3 < v) by lia.
  destruct C as [C | [C | [C | [C | C]]]]; covers_case.
Qed.

Ltac table_cases :=
  split; [first [apply covers_five | apply covers_four]; lia |];
  split; [repeat constructor; simpl; intuition discriminate |];
  eexists; vm_compute; reflexivity.

Lemma damage_bins_ok (m : spec_float) : table_ok (damage_bins m).
Proof.
  unfold damage_bins.
  destruct (float_lt_int m 1000000); [| destruct (float_lt_int m 1000000000)];
    table_cases.
Qed.

Lemma count_bins_ok (m : spec_float) : table_ok (count_bins m).
Proof.
  unfold count_bins.
  destruct (float_le_int m 20); [| destruct (float_le_int m 50)]; table_cases.
Qed.

(** *** Merging, sorting, filtering *)

Lemma merged_map (g : string -> Z) (ks : list string) (k : string) :
  In k ks -> merged (map (fun k => (k, g k)) ks) k = Some (g k).
Proof.
  induction ks as [| k' ks IH]; simpl; [tauto |].
  destruct (String.eqb_spec k k') as [-> | Hne]; [reflexivity |].
  intros [-> | H]; [congruence | now apply IH].
Qed.

Lemma combine_map_both {A B C : Type} (a : A -> B) (b : A -> C) (l : list A) :
  combine (map a l) (map b l) = map (fun x => (a x, b x)) l.
Proof. induction l; simpl; congruence. Qed.

Lemma filter_flat_map {A B : Type} (q : B -> bool) (f : A -> list B) (l : list A) :
  filter q (flat_map f l) = flat_map (fun x => filter q (f x)) l.
Proof.
  induction l as [| x l IH]; simpl; [reflexivity |].
  now rewrite filter_app, IH.
Qed.

Lemma filter_filter {A : Type} (p q : A -> bool) (l : list A) :
  filter p (filter q l) = filter (fun x => q x && p x) l.
Proof.
  induction l as [| x l IH]; simpl; [reflexivity |].
  destruct (q x); simpl; [destruct (p x) |]; congruence.
Qed.

Lemma filter_none {A : Type} (p : A -> bool) (l : list A) :
  (forall x, In x l -> p x = false) -> filter p l = [].
Proof.
  induction l as [| x l IH]; simpl; [reflexivity |]. intros H.
  rewrite (H x (or_introl eq_refl)). apply IH. intros y Hy. apply H. now right.
Qed.

Lemma flat_map_single {A : Type} (xs : list A) (l0 : string) (labels : list string) :
  NoDup labels -> In l0 labels ->
  flat_map (fun l => if (l =? l0)%string then xs else []) labels = xs.
Proof.
  induction 1 as [| l labels Hl Hnd IH]; simpl; [tauto |].
  intros [-> | Hin].
  - rewrite String.eqb_refl.
    replace (flat_map _ labels) with (@nil A); [apply app_nil_r |].
    symmetry. clear IH. induction labels as [| l labels IH]; simpl; [reflexivity |].
    destruct (String.eqb_spec l l0) as [-> | _]; [simpl in Hl; tauto |].
    simpl. apply IH.
    + simpl in Hl. tauto.
    + now inversion Hnd.
  - destruct (String.eqb_spec l l0) as [-> | _]; [contradiction |]. now apply IH.
Qed.

Lemma filter_eqb_NoDup (l0 : string) (ms : list string) :
  NoDup ms ->
  filter (fun l => (l =? l0)%string) ms = if isin l0 ms then [l0] else [].
Proof.
  induction 1 as [| m ms Hm Hnd IH]; simpl; [reflexivity |].
  rewrite (String.eqb_sym l0 m).
  destruct (String.eqb_spec m l0) as [-> | Hne]; simpl.
  - rewrite IH. apply isin_false in Hm. now rewrite Hm.
  - exact IH.
Qed.

Lemma NoDup_filter {A : Type} (p : A -> bool) (l : list A) : NoDup l -> NoDup (filter p l).
Proof.
  induction 1 as [| x l Hx Hnd IH]; simpl; [constructor |].
  destruct (p x); [| assumption]. constructor; [| assumption].
  intros H. apply filter_In in H. tauto.
Qed.

Lemma has_category_Some (l : string) (row : map_row) :
  has_category l row = true <-> row_category row = Some l.
Proof.
  unfold has_category. destruct (row_category row) as [l' |].
  - rewrite String.eqb_eq. split; congruence.
  - split; discriminate.
Qed.

Lemma sort_values_In (rows : list map_row) (labels : list string) (row : map_row) :
  (forall r, In r rows -> exists l, In l labels /\ row_category r = Some l) ->
  In row (sort_values rows labels) <-> In row rows.
Proof.
  intros Hcat. unfold sort_values. rewrite in_app_iff, in_flat_map. split.
  - intros [[l [_ H]] | H]; apply filter_In in H; tauto.
  - intros H. left. destruct (Hcat row H) as [l [Hl E]]. exists l.
    split; [assumption |]. apply filter_In. split; [assumption |].
    now apply has_category_Some.
Qed.

Lemma dropna_In {A : Type} (xs : list (option A)) (x : A) :
  In x (dropna xs) <-> In (Some x) xs.
Proof.
  unfold dropna. rewrite in_flat_map. split.
  - intros [[y |] [Hy Hx]]; simpl in Hx; [| tauto].
    destruct Hx as [-> | []]. assumption.
  - intros H. exists (Some x). simpl. tauto.
Qed.

(** *** The shared part of the binners *)

Section Categorise.

Variable f : frame.
Variable g : string -> Z.
Variable bins : list edge.
Variable labels : list string.
Variable fill : Z.
Variable colors : list (string * string).

Hypothesis covered : forall r, In r f ->
  exists l, cut bins labels (Some (g (country r))) = Some l /\ In l labels.
Hypothesis labels_NoDup : NoDup labels.
Hypothesis labels_colors : category_color labels = Ok colors.

Let category (r : record) : option string := cut bins labels (Some (g (country r))).

Let real (r : record) : map_row :=
  {| row_country := Some (country r);
     row_value := Some (g (country r));
     row_category := category r |}.

Let missing : list string :=
  filter (fun l => negb (isin l (unique (dropna (map category f))))) labels.

Let rows : list map_row := (map real f ++ map (placeholder fill) missing)%list.

Lemma categorise_rows :
  categorise f (map (fun r => Some (g (country r))) f) bins labels fill
  = Ok {| chart_rows := sort_values rows labels;
          category_orders := labels;
          color_discrete_map := colors |}.
Proof.
  unfold categorise. rewrite labels_colors. cbn [bind].
  rewrite !map_map, combine_map_self, combine_map_both, map_map. cbn [fst snd].
  fold category. fold real. fold missing. unfold rows.
  destruct missing; [| reflexivity].
  now rewrite app_nil_r.
Qed.

Lemma missing_In (l : string) :
  In l missing <-> In l labels /\ ~ exists r, In r f /\ category r = Some l.
Proof.
  unfold missing. rewrite filter_In, negb_true_iff, isin_false, unique_In, dropna_In,
    in_map_iff.
  split; intros [H1 H2]; (split; [assumption |]); intros [r Hr]; apply H2;
    exists r; tauto.
Qed.

Lemma rows_category (row : map_row) :
  In row rows -> exists l, In l labels /\ row_category row = Some l.
Proof.
  unfold rows. rewrite in_app_iff, !in_map_iff. intros [[r [<- Hr]] | [l [<- Hl]]].
  - destruct (covered r Hr) as [l [E Hl]]. now exists l.
  - apply missing_In in Hl. now exists l.
Qed.

Lemma sorted_rows_In (row : map_row) : In row (sort_values rows labels) <-> In row rows.
Proof. apply sort_values_In, rows_category. Qed.

Lemma has_member_rows (l : string) :
  has_member l (sort_values rows labels) = true <-> exists r, In r f /\ category r = Some l.
Proof.
  unfold has_member. rewrite existsb_exists. split.
  - intros [row [Hrow Hq]]. apply sorted_rows_In in Hrow.
    apply andb_true_iff in Hq. destruct Hq as [Hreal Hcat].
    apply has_category_Some in Hcat.
    unfold rows in Hrow. rewrite in_app_iff, !in_map_iff in Hrow.
    destruct Hrow as [[r [<- Hr]] | [l' [<- _]]]; [| discriminate].
    now exists r.
  - intros [r [Hr E]]. exists (real r). split.
    + apply sorted_rows_In. unfold rows. rewrite in_app_iff. left. now apply in_map.
    + apply andb_true_iff. split; [reflexivity |]. now apply has_category_Some.
Qed.

Lemma placeholders_rows (l0 : string) :
  In l0 labels ->
  filter (fun row => is_placeholder row && has_category l0 row) (sort_values rows labels)
  = if has_member l0 (sort_values rows labels) then [] else [placeholder fill l0].
Proof.
  intros Hl0. set (q := fun row => is_placeholder row && has_category l0 row).
  assert (Hq : filter q rows = if isin l0 missing then [placeholder fill l0] else []).
  { unfold rows. rewrite filter_app.
    rewrite (filter_none q (map real f)).
    - simpl. rewrite filter_map_swap.
      rewrite (filter_ext (fun l => q (placeholder fill l)) (fun l => (l =? l0)%string))
        by reflexivity.
      rewrite filter_eqb_NoDup by (apply NoDup_filter, labels_NoDup).
      now destruct (isin l0 missing).
    - intros row Hrow. apply in_map_iff in Hrow. now destruct Hrow as [r [<- _]]. }
  unfold sort_values. rewrite filter_app, filter_flat_map.
  rewrite (filter_none q (filter no_category rows)).
  2:{ intros row Hrow. apply filter_In in Hrow. destruct Hrow as [_ Hn].
      unfold q, has_category, no_category in *.
      destruct (row_category row); [discriminate | apply andb_false_r]. }
  rewrite app_nil_r.
  rewrite (flat_map_ext _ (fun l => if (l =? l0)%string then filter q rows else [])).
  2:{ intros l. rewrite filter_filter.
      destruct (String.eqb_spec l l0) as [-> | Hne].
      - apply filter_ext. intros row. unfold q.
        destruct (has_category l0 row); [reflexivity | now rewrite andb_false_r].
      - apply filter_none. intros row _. unfold q.
        destruct (has_category l row) eqn:E1; [| reflexivity].
        destruct (has_category l0 row) eqn:E2; [| now rewrite andb_false_r].
        apply has_category_Some in E1, E2. congruence. }
  rewrite (flat_map_single _ _ _ labels_NoDup Hl0), Hq.
  fold sort_values. change (flat_map _ labels ++ filter no_category rows)%list
    with (sort_values rows labels).
  destruct (isin l0 missing) eqn:Em.
  - apply isin_In, missing_In in Em. destruct Em as [_ Hno].
    destruct (has_member l0 (sort_values rows labels)) eqn:Eh; [| reflexivity].
    apply has_member_rows in Eh. contradiction.
  - apply isin_false in Em.
    destruct (has_member l0 (sort_values rows labels)) eqn:Eh; [reflexivity |].
    exfalso. apply Em, missing_In. split; [assumption |].
    intros H. apply has_member_rows in H. congruence.
Qed.

(** With a table that covers the values, the shared part returns and its
    output has the binner property. *)
Lemma categorise_property :
  exists out,
    categorise f (map (fun r => Some (g (country r))) f) bins labels fill = Ok out
    /\ binner_property fill f labels out.
Proof.
  eexists. split; [apply categorise_rows |].
  split; [reflexivity |]. cbn [chart_rows]. split.
  - intros r Hr. destruct (covered r Hr) as [l [E Hl]].
    exists l. split; [assumption |]. split.
    + exists (real r). split; [| reflexivity].
      apply sorted_rows_In. unfold rows. rewrite in_app_iff. left. now apply in_map.
    + intros row Hrow Hc. apply sorted_rows_In in Hrow.
      unfold rows in Hrow. rewrite in_app_iff, !in_map_iff in Hrow.
      destruct Hrow as [[r' [<- Hr']] | [l' [<- _]]]; [| discriminate].
      simpl in Hc. injection Hc as Hc. simpl. unfold category. now rewrite Hc.
  - apply placeholders_rows.
Qed.

End Categorise.

(** *** The two binners *)

Lemma nansum_nonnegative (xs : list (option Z)) : Forall nonnegative xs -> 0 <= nansum xs.
Proof.
  induction 1 as [| [x |] xs Hx _ IH]; simpl in *; lia.
Qed.

Lemma group_sum_nonnegative (f : frame) (key : record -> string)
  (cell : record -> option Z) (k : string) :
  Forall (fun r => nonnegative (cell r)) f -> 0 <= group_sum f key cell k.
Proof.
  intros H. apply nansum_nonnegative. rewrite Forall_map.
  rewrite Forall_forall in *. intros r Hr. apply filter_In in Hr. now apply H.
Qed.

Lemma groupby_count_nonempty (f : frame) (name : string) (key : record -> string) :
  f <> [] ->
  groupby_count f name key
  = Ok (map (fun k => (k, Z.of_nat (List.length (filter (fun r => key r =? k)%string f))))
            (sorted (unique (map key f)))).
Proof. intros H. unfold groupby_count. now rewrite column_nonempty. Qed.

Lemma merged_groups (f : frame) (g : string -> Z) :
  map (fun r => merged (map (fun k => (k, g k)) (sorted (unique (map country f))))
                       (country r)) f
  = map (fun r => Some (g (country r))) f.
Proof.
  apply map_ext_in. intros r Hr. apply merged_map, group_keys_In. now exists r.
Qed.

(** C2, as amended: on a subset with records whose damage amounts are not
    negative, each binner returns; its label list is the whole label list of
    the table the median picks; every country of the subset falls in exactly
    one label of the table; and a label has a synthesised row without
    country, exactly one, iff no country falls in it.  The synthesised row
    has the value 0 on the damage map and the value 1 on the
    disaster-count map. *)
Theorem choropleth_bins (data : list record) :
  data <> [] ->
  Forall (fun r => nonnegative (total_damage r)) data ->
  (exists out,
     mapA_damage_choropleth data = Ok out
     /\ binner_property 0 data (snd (damage_bins (median (damage_by_country data)))) out)
  /\ (exists out,
        mapB_disaster_count_choropleth data = Ok out
        /\ binner_property 1 data
             (snd (count_bins (median (disasters_by_country data)))) out).
Proof.
  intros Hdata Hdamage. split.
  - unfold mapA_damage_choropleth, DataFrame.
    rewrite (groupby_sum_nonempty data _ _ _ Hdata). cbn [bind].
    rewrite (merged_groups data (group_sum data country total_damage)).
    fold (damage_by_country data).
    destruct (damage_bins_ok (median (damage_by_country data))) as [Hc [Hnd [colors Hcol]]].
    destruct (damage_bins (median (damage_by_country data))) as [bins labels].
    cbn [fst snd] in *.
    apply (categorise_property data (group_sum data country total_damage)
             bins labels 0 colors); try assumption.
    intros r _. apply Hc. now apply group_sum_nonnegative.
  - unfold mapB_disaster_count_choropleth, DataFrame.
    rewrite (groupby_count_nonempty data _ _ Hdata). cbn [bind].
    rewrite (merged_groups data
               (fun k => Z.of_nat (List.length
                                     (filter (fun r => country r =? k)%string data)))).
    fold (disasters_by_country data).
    destruct (count_bins_ok (median (disasters_by_country data)))
      as [Hc [Hnd [colors Hcol]]].
    destruct (count_bins (median (disasters_by_country data))) as [bins labels].
    cbn [fst snd] in *.
    apply (categorise_property data
             (fun k => Z.of_nat (List.length
                                   (filter (fun r => country r =? k)%string data)))
             bins labels 1 colors); try assumption.
    intros r _. apply Hc. lia.
Qed.

Lemma choropleth_bins_witness :
  fixture <> []
  /\ Forall (fun r => nonnegative (total_damage r)) fixture
  /\ (exists out,
        mapA_damage_choropleth fixture = Ok out
        /\ binner_property 0 fixture
             ["0 - 1K"; "1K - 10K"; "10K - 100K"; "100K - 1M"; "> 1M"] out)
  /\ (exists out,
        mapB_disaster_count_choropleth fixture = Ok out
        /\ binner_property 1 fixture
             ["0 - 10"; "10 - 20"; "20 - 30"; "30 - 40"; "> 40"] out).
Proof.
  assert (H1 : fixture <> []) by discriminate.
  assert (H2 : Forall (fun r => nonnegative (total_damage r)) fixture)
    by (repeat constructor; simpl; lia).
  split; [exact H1 |]. split; [exact H2 |].
  exact (choropleth_bins fixture H1 H2).
Defined.

(** C2, as stated, fails on the disaster-count map: the row synthesised
    for an empty category has the value 1, not 0. *)
Lemma choropleth_count_placeholder_counterexample :
  ~ exists out,
      mapB_disaster_count_choropleth [flood_japan_2010] = Ok out
      /\ binner_property 0 [flood_japan_2010]
           (snd (count_bins (median (disasters_by_country [flood_japan_2010])))) out.
Proof.
  intros [out [Hout [_ [_ H]]]].
  vm_compute in Hout. injection Hout as <-.
  specialize (H "10 - 20"). vm_compute in H.
  assert (E : [placeholder 1 "10 - 20"] = [placeholder 0 "10 - 20"]).
  { apply H. right. now left. }
  discriminate E.
Qed.

Example mapB_single_record :
  exists out,
    mapB_disaster_count_choropleth [flood_japan_2010] = Ok out
    /\ chart_rows out
       = [ {| row_country := Some "Japan"; row_value := Some 1;
              row_category := Some "0 - 10" |};
           placeholder 1 "10 - 20"; placeholder 1 "20 - 30";
           placeholder 1 "30 - 40"; placeholder 1 "> 40" ].
Proof. eexists. split; vm_compute; reflexivity. Qed.

Example mapA_single_record :
  exists out,
    mapA_damage_choropleth [flood_japan_2010] = Ok out
    /\ chart_rows out
       = [ placeholder 0 "0 - 1K";
           {| row_country := Some "Japan"; row_value := Some 5000;
              row_category := Some "1K - 10K" |};
           placeholder 0 "10K - 100K"; placeholder 0 "100K - 1M";
           placeholder 0 "> 1M" ].
Proof. eexists. split; vm_compute; reflexivity. Qed.

(** * Further properties *)

(** ** Outcomes of the filter callback *)

Lemma existsb_null_month (data : store) :
  existsb null_month data = true <-> In None (map month data).
Proof.
  rewrite existsb_exists, in_map_iff. unfold null_month.
  split; intros [r [H1 H2]]; exists r.
  - destruct (month r); [discriminate | tauto].
  - rewrite H1. tauto.
Qed.

Lemma no_null_month (data : store) :
  existsb null_month data = false -> Forall (fun r => month r <> None) data.
Proof.
  intros H. apply Forall_forall. intros r Hr E.
  assert (existsb null_month data = true); [| congruence].
  apply existsb_exists. exists r. unfold null_month. now rewrite E.
Qed.

Lemma store_data_cases (c : criteria) (data : store) :
  snd (store_data c data) = store_data_result c data.
Proof.
  unfold store_data_result.
  destruct (selected_year c) as [[| lo [| hi rest]] |] eqn:Ey.
  - destruct (chosen (selected_month c)) as [sel |] eqn:Em.
    + destruct (existsb null_month data) eqn:En.
      * unfold store_data. rewrite Ey, Em. cbn [chosen].
        apply existsb_null_month in En. now rewrite (astype_int_None _ En).
      * apply store_data_returns; [rewrite Ey; discriminate |].
        right. now apply no_null_month.
    + apply store_data_returns; [rewrite Ey; discriminate | now left].
  - unfold store_data. rewrite Ey. reflexivity.
  - destruct (chosen (selected_month c)) as [sel |] eqn:Em.
    + destruct (existsb null_month data) eqn:En.
      * unfold store_data. rewrite Ey, Em. cbn [chosen getitem nth_error bind].
        apply existsb_null_month in En. now rewrite (astype_int_None _ En).
      * apply store_data_returns; [rewrite Ey; discriminate |].
        right. now apply no_null_month.
    + apply store_data_returns; [rewrite Ey; discriminate | now left].
  - destruct (chosen (selected_month c)) as [sel |] eqn:Em.
    + destruct (existsb null_month data) eqn:En.
      * unfold store_data. rewrite Ey, Em. cbn [chosen].
        apply existsb_null_month in En. now rewrite (astype_int_None _ En).
      * apply store_data_returns; [rewrite Ey; discriminate |].
        right. now apply no_null_month.
    + apply store_data_returns; [rewrite Ey; discriminate | now left].
Qed.

(** X1: every call of [store_data] ends in one of three ways.  A year
    selection of a single element raises IndexError; otherwise, when months
    are selected and a stored month is null, the cast raises; otherwise the
    call returns the stored records that match, the years compared as
    texts, in store order. *)
Theorem store_data_outcome (c : criteria) (data : store) :
  snd (store_data c data) = store_data_result c data.
Proof. apply store_data_cases. Qed.

(** X2: whatever the series of filter calls, and whether they return or
    raise, the store holds the same values afterwards: the only write, the
    cast month column, puts every month back as it was. *)
Theorem store_after_calls (calls : list criteria) (data : store) :
  store_after calls data = data.
Proof.
  unfold store_after. induction calls as [| c calls IH]; simpl; [reflexivity |].
  now rewrite store_data_store.
Qed.

(** ** Country options *)

Lemma update_countries_list (data : store) (cont sub : option (list string)) :
  update_countries data cont sub
  = map option_of
      (sorted (unique (map country
         (filter (fun r => within cont (region r) && within sub (subregion r)) data)))).
Proof.
  unfold update_countries. do 3 f_equal.
  destruct cont as [[| x xs] |], sub as [[| y ys] |]; cbn [within];
    rewrite ?filter_filter; f_equal; cbn [andb];
    first [ reflexivity
          | symmetry; apply filter_true
          | apply filter_ext; intros r; now rewrite ?andb_true_r ].
Qed.

Lemma option_of_inj (a b : string) : option_of a = option_of b -> a = b.
Proof. now intros [= ]. Qed.

(** X3: the country options are the countries of the records that pass the
    continent selection and the subregion selection, an empty or absent
    selection letting every record pass; each country once, in ascending
    text order. *)
Theorem update_countries_options (data : store) (cont sub : option (list string)) :
  exists l,
    update_countries data cont sub = map option_of l
    /\ Sorted (fun a b => String.leb a b = true) l
    /\ NoDup l
    /\ forall x, In x l <->
         exists r, In r data /\ within cont (region r) = true
                   /\ within sub (subregion r) = true /\ country r = x.
Proof.
  eexists. split; [apply update_countries_list |].
  split; [apply sorted_Sorted |].
  split; [apply sorted_NoDup, unique_NoDup |].
  intros x. rewrite sorted_In, unique_In, in_map_iff. split.
  - intros [r [Hx Hr]]. apply filter_In in Hr. destruct Hr as [Hr Hw].
    apply andb_true_iff in Hw. exists r. tauto.
  - intros [r [Hr [H1 [H2 Hx]]]]. exists r. split; [assumption |].
    apply filter_In. split; [assumption |]. now rewrite H1, H2.
Qed.

(** X4: a country that is offered can be chosen: with the same continents
    and subregions, that country alone and no other restriction, the filter
    returns at least one record, and only records of that country. *)
Theorem offered_country_has_records (data : store) (cont sub : option (list string))
  (x : string) :
  In (option_of x) (update_countries data cont sub) ->
  exists out,
    snd (store_data {| selected_continent := cont; selected_subregion := sub;
                       selected_country := Some [x]; selected_year := None;
                       selected_month := None; selected_disaster_type := None |} data)
    = Ok out
    /\ out <> []
    /\ Forall (fun r => In r data /\ country r = x) out.
Proof.
  intros Hx. rewrite update_countries_list in Hx.
  apply in_map_iff in Hx. destruct Hx as [x' [E Hx]]. apply option_of_inj in E. subst x'.
  apply sorted_In, unique_In, in_map_iff in Hx. destruct Hx as [r [Hc Hr]].
  apply filter_In in Hr. destruct Hr as [Hr Hw]. apply andb_true_iff in Hw.
  eexists. split.
  - apply store_data_returns; [discriminate | now left].
  - split.
    + intros E.
      assert (H : In r []); [| exact H].
      rewrite <- E. apply filter_In. split; [assumption |].
      unfold matches. cbn. destruct Hw as [-> ->]. rewrite Hc, String.eqb_refl.
      reflexivity.
    + apply Forall_forall. intros r' Hr'. apply filter_In in Hr'.
      destruct Hr' as [Hin Hm]. split; [assumption |].
      unfold matches in Hm. cbn in Hm.
      rewrite !andb_true_r in Hm. apply andb_true_iff in Hm. destruct Hm as [_ Hm].
      rewrite orb_false_r in Hm. now apply String.eqb_eq in Hm.
Qed.

Lemma offered_country_has_records_witness :
  In (option_of "Japan") (update_countries fixture (Some ["Asia"]) None)
  /\ exists out,
       snd (store_data {| selected_continent := Some ["Asia"]; selected_subregion := None;
                          selected_country := Some ["Japan"]; selected_year := None;
                          selected_month := None; selected_disaster_type := None |}
                       fixture) = Ok out
       /\ out <> []
       /\ Forall (fun r => In r fixture /\ country r = "Japan") out.
Proof.
  assert (H : In (option_of "Japan") (update_countries fixture (Some ["Asia"]) None))
    by (vm_compute; tauto).
  split; [exact H |].
  exact (offered_country_has_records fixture (Some ["Asia"]) None "Japan" H).
Defined.

(** ** Statistic cards on a subset with records *)

Lemma string_compare_trans (a b c : string) :
  String.compare a b <> Gt -> String.compare b c <> Gt -> String.compare a c <> Gt.
Proof.
  revert b c. induction a as [| x a IH]; intros [| y b] [| z c]; simpl; try congruence.
  unfold Ascii.compare.
  destruct (N.compare_spec (N_of_ascii x) (N_of_ascii y)) as [E1 | E1 | E1];
    destruct (N.compare_spec (N_of_ascii y) (N_of_ascii z)) as [E2 | E2 | E2];
    try congruence;
    destruct (N.compare_spec (N_of_ascii x) (N_of_ascii z)) as [E3 | E3 | E3];
    try congruence; try lia.
  apply IH.
Qed.

Lemma string_leb_trans (a b c : string) :
  String.leb a b = true -> String.leb b c = true -> String.leb a c = true.
Proof.
  unfold String.leb. intros H1 H2.
  pose proof (string_compare_trans a b c) as H.
  destruct (String.compare a b), (String.compare b c), (String.compare a c);
    try reflexivity; try discriminate; exfalso; apply H; congruence.
Qed.


Lemma sorted_StronglySorted (xs : list string) :
  StronglySorted (fun a b => String.leb a b = true) (sorted xs).
Proof.
  apply StringSort.StronglySorted_sort. intros a b c. apply string_leb_trans.
Qed.



















(** ** Card headers *)

Lemma generate_header_from_callback (base : string) (ds : list string)
  (lo hi : Z) (rest : list Z) (months : option (list Z)) :
  generate_header base ds (YearList (lo :: hi :: rest)) (month_value months)
  = match chosen months with
    | None => Ok (base ++ types_phrase ds ++ years_phrase lo hi)
    | Some _ => Raise TypeError
    end.
Proof.
  unfold generate_header. rewrite generate_header_types.
  unfold getitem, years_phrase. cbn [nth_error bind].
  destruct (lo =? hi); cbn [negb bind];
    destruct months as [[| m ms] |]; cbn [month_value chosen];
    rewrite ?append_assoc; reflexivity.
Qed.

(** X7: the header callback receives the month selection as a list.  With
    a list of types and the two years of the slider, it returns the four
    base texts, each followed by the same type phrase and year phrase, as
    long as no month is selected; once a month is selected it raises
    TypeError and returns no header. *)
Theorem generate_card_name_headers (c : criteria) (ds : list string)
  (lo hi : Z) (rest : list Z) :
  selected_disaster_type c = Some ds ->
  selected_year c = Some (lo :: hi :: rest) ->
  (chosen (selected_month c) = None ->
   generate_card_name c
   = Ok ("Total damage (in US$) inflicted by " ++ types_phrase ds ++ years_phrase lo hi,
         "Total number of " ++ types_phrase ds ++ years_phrase lo hi,
         "Trends of " ++ types_phrase ds ++ years_phrase lo hi,
         "Number of deaths by time from " ++ types_phrase ds ++ years_phrase lo hi))
  /\ (chosen (selected_month c) <> None -> generate_card_name c = Raise TypeError).
Proof.
  intros Hds Hy. unfold generate_card_name. rewrite Hds, Hy. cbn [year_value].
  rewrite !generate_header_from_callback.
  destruct (chosen (selected_month c)); split; intros H; try congruence; reflexivity.
Qed.

Lemma generate_card_name_headers_witness :
  selected_disaster_type floods_2010 = Some ["Flood"]
  /\ selected_year floods_2010 = Some [2010; 2010]
  /\ chosen (selected_month floods_2010) = None
  /\ generate_card_name floods_2010
     = Ok ("Total damage (in US$) inflicted by Flood in 2010",
           "Total number of Flood in 2010",
           "Trends of Flood in 2010",
           "Number of deaths by time from Flood in 2010").
Proof.
  split; [reflexivity |]. split; [reflexivity |]. split; [reflexivity |].
  exact (proj1 (generate_card_name_headers floods_2010 ["Flood"] 2010 2010 []
                  eq_refl eq_refl) eq_refl).
Defined.

(** X8: the edges of [generate_header].  A year list of fewer than two
    elements raises IndexError; a month number outside 1 to 12 other than 0
    raises KeyError; the month number 0 is taken as no month. *)
Theorem generate_header_edges (base : string) (ds : list string) (month : month_arg) :
  generate_header base ds (YearList []) month = Raise IndexError
  /\ (forall y, generate_header base ds (YearList [y]) month = Raise IndexError)
  /\ (forall year m, m < 0 \/ 12 < m ->
        year <> YearList [] -> (forall y, year <> YearList [y]) ->
        generate_header base ds year (MonthInt m) = Raise (KeyError (str m)))
  /\ (forall year, generate_header base ds year (MonthInt 0)
                   = generate_header base ds year MonthNone).
Proof.
  split; [reflexivity |]. split; [reflexivity |]. split.
  - intros year m Hm H0 H1. unfold generate_header. rewrite generate_header_types.
    assert (E : dict_get month_map m = Raise (KeyError (str m))).
    { unfold dict_get, month_map. decide_comparisons. reflexivity. }
    destruct year as [[| y0 [| y1 ys]] | y |]; unfold getitem; cbn [nth_error bind].
    + congruence.
    + now destruct (H1 y0).
    + destruct (y0 =? y1); cbn [negb bind]; destruct m; try lia; now rewrite E.
    + destruct m; try lia; now rewrite E.
    + destruct m; try lia; now rewrite E.
  - intros year. reflexivity.
Qed.

Lemma generate_header_edges_witness :
  (13 < 0 \/ 12 < 13)
  /\ generate_header "Trends of " ["Flood"] (YearList [2005; 2010]) (MonthInt 13)
     = Raise (KeyError "13").
Proof.
  assert (H : 13 < 0 \/ 12 < 13) by lia.
  split; [exact H |].
  refine (proj1 (proj2 (proj2 (generate_header_edges "Trends of " ["Flood"] MonthNone)))
            (YearList [2005; 2010]) 13 H _ _); intros; discriminate.
Defined.

(** ** Value formatter on floats *)

(** X9: on a float the formatter never raises, whatever the float: the
    division and the rendering are float operations.  A NaN is below no
    threshold and comes out as "nanB", an infinity as "infB" or "-inf". *)
Theorem format_value_on_floats (x : spec_float) :
  (exists s, format_value (Some (PyFloat x)) = Ok s)
  /\ format_value (Some (PyFloat S754_nan)) = Ok "nanB"
  /\ format_value (Some (PyFloat (S754_infinity false))) = Ok "infB"
  /\ format_value (Some (PyFloat (S754_infinity true))) = Ok "-inf".
Proof.
  split; [| repeat split].
  unfold format_value, py_lt, truediv, format_fixed.
  repeat (destruct (float_lt_int x _)); cbn [bind]; eauto.
Qed.

(** ** Stacked bars *)

Lemma traverse_app {A B : Type} (f : A -> result B) (l1 l2 : list A) :
  traverse f (l1 ++ l2)
  = (x <- traverse f l1 ;; y <- traverse f l2 ;; Ok (x ++ y)%list).
Proof.
  induction l1 as [| a l1 IH]; simpl.
  - now destruct (traverse f l2).
  - destruct (f a); simpl; [| reflexivity]. rewrite IH.
    destruct (traverse f l1); simpl; [| reflexivity].
    now destruct (traverse f l2).
Qed.

Lemma traverse_map {A B C : Type} (f : B -> result C) (g : A -> B) (h : A -> C)
  (l : list A) :
  (forall x, f (g x) = Ok (h x)) -> traverse f (map g l) = Ok (map h l).
Proof.
  intros H. induction l as [| a l IH]; simpl; [reflexivity |].
  now rewrite H, IH.
Qed.

Lemma traverse_shift {A : Type} (f : nat -> result A) (n start : nat) :
  traverse f (seq (S start) n) = traverse (fun i => f (S i)) (seq start n).
Proof.
  revert start. induction n as [| n IH]; intros start; simpl; [reflexivity |].
  now rewrite IH.
Qed.

(** A dict built by position from two lists: the pairs, when the second
    list is long enough; an index error otherwise. *)
Lemma zip_by_index (a b : list string) :
  traverse (fun i => l <- getitem a i ;; c <- getitem b i ;; Ok (l, c))
           (seq 0 (List.length a))
  = if (List.length a <=? List.length b)%nat then Ok (combine a b) else Raise IndexError.
Proof.
  revert b. induction a as [| x a IH]; intros b; [reflexivity |].
  cbn [List.length seq traverse]. unfold getitem at 1 2. cbn [nth_error bind].
  destruct b as [| y b]; [reflexivity |]. cbn [bind].
  rewrite traverse_shift.
  replace (traverse _ (seq 0 (List.length a)))
    with (traverse (fun i => l <- getitem a i ;; c <- getitem b i ;; Ok (l, c))
                   (seq 0 (List.length a))) by reflexivity.
  rewrite IH. cbn [List.length combine].
  change (S (List.length a) <=? S (List.length b))%nat
    with (List.length a <=? List.length b)%nat.
  now destruct (List.length a <=? List.length b)%nat.
Qed.

Lemma map_flat_map {A B C : Type} (f : B -> C) (g : A -> list B) (l : list A) :
  map f (flat_map g l) = flat_map (fun x => map f (g x)) l.
Proof.
  induction l as [| a l IH]; simpl; [reflexivity |]. now rewrite map_app, IH.
Qed.

Lemma total_app (xs ys : list Z) : total (xs ++ ys) = total xs + total ys.
Proof. unfold total. induction xs; simpl; lia. Qed.

Lemma total_flat_map {A : Type} (g : A -> list Z) (l : list A) :
  total (flat_map g l) = total (map (fun x => total (g x)) l).
Proof.
  induction l as [| a l IH]; simpl; [reflexivity |].
  rewrite total_app, IH. reflexivity.
Qed.

Lemma nansum_ones {A : Type} (l : list A) :
  nansum (map (fun _ => Some 1) l) = Z.of_nat (List.length l).
Proof. induction l as [| a l IH]; [reflexivity |]. cbn [map nansum fold_right List.length].
  unfold nansum in IH. cbn [fold_right]. fold (nansum (map (fun _ : A => Some 1) l)).
  unfold nansum. rewrite IH. lia.
Qed.

Lemma group_size (f : frame) (key : record -> string) (k : string) :
  group_sum f key (fun _ => Some 1) k
  = Z.of_nat (List.length (filter (fun r => key r =? k)%string f)).
Proof. unfold group_sum. apply nansum_ones. Qed.

Lemma NoDup_map_pair {A B : Type} (x : A) (l : list B) :
  NoDup l -> NoDup (map (fun t => (x, t)) l).
Proof.
  induction 1 as [| t l Ht Hl IH]; simpl; constructor; [| assumption].
  intros H. apply in_map_iff in H. destruct H as [t' [[= ->] Ht']]. contradiction.
Qed.

Lemma NoDup_pairs {A B : Type} (g : A -> list B) (l : list A) :
  NoDup l -> (forall x, NoDup (g x)) ->
  NoDup (flat_map (fun x => map (fun t => (x, t)) (g x)) l).
Proof.
  intros Hl Hg. induction Hl as [| a l Ha Hl IH]; simpl; [constructor |].
  apply NoDup_app.
  - apply NoDup_map_pair, Hg.
  - exact IH.
  - intros [x t] H1 H2. apply in_map_iff in H1. destruct H1 as [t' [[= <- <-] _]].
    apply in_flat_map in H2. destruct H2 as [x' [Hx' H2]].
    apply in_map_iff in H2. destruct H2 as [t'' [[= -> _] _]]. contradiction.
Qed.

(** The types that occur in one year, and the rows of one pair. *)
Lemma pair_size_count (data : list record) (y : Z) (t : string) :
  pair_size data (str y) t
  = Z.of_nat (List.length
                (filter (fun r => (year r =? y) && (type r =? t)%string) data)).
Proof.
  unfold pair_size. do 2 f_equal. apply filter_ext. intros r.
  now rewrite year_text_eqb.
Qed.

Lemma year_sizes (data : list record) (k : string) :
  total (map (pair_size data k)
             (sorted (unique (map type (filter (fun r => (year_text r =? k)%string) data)))))
  = Z.of_nat (List.length (filter (fun r => (year_text r =? k)%string) data)).
Proof.
  set (F := filter (fun r => (year_text r =? k)%string) data).
  rewrite <- (nansum_ones F), <- (group_sums_all F type (fun _ => Some 1)).
  f_equal. apply map_ext. intros t. rewrite group_size. unfold pair_size, F.
  now rewrite filter_filter.
Qed.

Lemma traverse_bar_rows (g : string -> list string) (h : string -> string -> Z)
  (ys : list Z) :
  traverse (fun row => y <- int_of_str (fst (fst row)) ;; Ok (y, snd (fst row), snd row))
    (flat_map (fun y => map (fun t => (y, t, h y t)) (g y)) (map str ys))
  = Ok (flat_map (fun y => map (fun t => (y, t, h (str y) t)) (g (str y))) ys).
Proof.
  induction ys as [| y ys IH]; [reflexivity |].
  cbn [map flat_map]. rewrite traverse_app, IH.
  rewrite (traverse_map _ _ (fun t => (y, t, h (str y) t))); [reflexivity |].
  intros t. cbn [fst snd]. now rewrite int_of_str_str.
Qed.

(** X10: on a subset with records, and with at most 35 types in the data
    set, the bars are one per pair of a year and a type that occurs in the
    subset, each pair once and with the number of its records, so no bar
    counts zero and the bars add up to the size of the subset; the types of
    the data set get the colours of the list by position.  With more than
    35 types the colours run out and the call raises IndexError. *)
Theorem plot_bar_total_disaster_bars (data_set : store) (data : list record) :
  data <> [] ->
  ((List.length (disaster_types data_set) <= List.length color_list)%nat ->
   exists fig,
     plot_bar_total_disaster data_set data = Ok fig
     /\ (forall y t n, In (y, t, n) (bars fig) <->
           (exists r, In r data /\ year r = y /\ type r = t)
           /\ n = Z.of_nat (List.length
                    (filter (fun r => (year r =? y) && (type r =? t)%string) data)))
     /\ NoDup (map fst (bars fig))
     /\ (forall row, In row (bars fig) -> 1 <= snd row)
     /\ total (map snd (bars fig)) = Z.of_nat (List.length data)
     /\ bar_colors fig = combine (disaster_types data_set) color_list)
  /\ ((List.length color_list < List.length (disaster_types data_set))%nat ->
      plot_bar_total_disaster data_set data = Raise IndexError).
Proof.
  intros Hdata. unfold plot_bar_total_disaster, groupby_size, DataFrame.
  rewrite (column_nonempty data _ _ Hdata). cbn [bind].
  pose proof (group_keys_NoDup data year_text) as Hnd.
  pose proof (group_keys_In data year_text) as Hin.
  pose proof (group_sums_all data year_text (fun _ => Some 1)) as Hsum.
  destruct (group_years data) as [ys Hys]. rewrite Hys in *.
  set (T := fun k => sorted (unique (map type
                        (filter (fun r => (year_text r =? k)%string) data)))).
  rewrite (traverse_bar_rows
             (fun k => sorted (unique (map type
                         (filter (fun r => (year_text r =? k)%string) data))))
             (pair_size data) ys).
  cbn [bind]. rewrite zip_by_index. fold T.
  assert (HT : forall y t, In t (T (str y)) <->
                           exists r, In r data /\ year r = y /\ type r = t).
  { intros y t. unfold T. rewrite sorted_In, unique_In, in_map_iff. split.
    - intros [r [Ht Hr]]. apply filter_In in Hr. destruct Hr as [Hr E].
      rewrite year_text_eqb in E. apply Z.eqb_eq in E. now exists r.
    - intros [r [Hr [Ey Et]]]. exists r. split; [assumption |].
      apply filter_In. split; [assumption |]. rewrite year_text_eqb.
      now apply Z.eqb_eq. }
  split.
  - intros Hlen. apply Nat.leb_le in Hlen. rewrite Hlen. cbn [bind].
    eexists. split; [reflexivity |]. cbn [bars bar_colors].
    split.
    { intros y t n. rewrite in_flat_map. split.
      - intros [y' [Hy' Hrow]]. apply in_map_iff in Hrow.
        destruct Hrow as [t' [[= -> -> <-] Ht']].
        split; [now apply HT | apply pair_size_count].
      - intros [[r [Hr [Ey Et]]] ->]. exists y. split.
        + assert (H : In (str y) (map str ys))
            by (apply Hin; exists r; unfold year_text; now rewrite Ey).
          apply in_map_iff in H. destruct H as [y' [E Hy']].
          apply str_inj in E. now subst.
        + apply in_map_iff. exists t. split; [now rewrite pair_size_count |].
          apply HT. now exists r. }
    split.
    { rewrite map_flat_map.
      rewrite (flat_map_ext _ (fun y => map (fun t => (y, t)) (T (str y))))
        by (intros y; rewrite map_map; reflexivity).
      apply NoDup_pairs; [now apply NoDup_map_inv in Hnd |].
      intros y. apply sorted_NoDup, unique_NoDup. }
    split.
    { intros [[y t] n] Hrow. apply in_flat_map in Hrow. destruct Hrow as [y' [_ Hrow]].
      apply in_map_iff in Hrow. destruct Hrow as [t' [[= -> -> <-] Ht']].
      apply HT in Ht'. destruct Ht' as [r [Hr [Ey Et]]].
      cbn [snd]. rewrite pair_size_count.
      assert (Hr' : In r (filter (fun r => (year r =? y) && (type r =? t)%string) data)).
      { apply filter_In. split; [assumption |].
        rewrite Ey, Et, Z.eqb_refl, String.eqb_refl. reflexivity. }
      destruct (filter _ data); [contradiction | cbn [List.length]; lia]. }
    split; [| reflexivity].
    rewrite map_flat_map, total_flat_map.
    rewrite <- (nansum_ones data), <- Hsum, map_map. f_equal.
    apply map_ext. intros y. rewrite map_map. cbn [snd].
    rewrite group_size. apply year_sizes.
  - intros Hlen. apply Nat.leb_gt in Hlen. now rewrite Hlen.
Qed.

Lemma plot_bar_total_disaster_bars_witness :
  fixture <> []
  /\ (List.length (disaster_types fixture) <= List.length color_list)%nat
  /\ exists fig,
       plot_bar_total_disaster fixture fixture = Ok fig
       /\ bars fig = [(2010, "Earthquake", 1); (2010, "Flood", 2);
                      (2011, "Storm", 1); (2012, "Flood", 1)].
Proof.
  assert (H1 : fixture <> []) by discriminate.
  assert (H2 : (List.length (disaster_types fixture) <= List.length color_list)%nat)
    by (vm_compute; repeat constructor).
  split; [exact H1 |]. split; [exact H2 |].
  destruct (proj1 (plot_bar_total_disaster_bars fixture fixture H1) H2) as [fig [E _]].
  exists fig. split; [exact E |].
  vm_compute in E. injection E as <-. reflexivity.
Defined.

(** ** Charts when nothing matches *)

Lemma store_data_Ok (c : criteria) (data : store) (out : list record) :
  snd (store_data c data) = Ok out -> out = filter (matches c) data.
Proof.
  rewrite store_data_cases. unfold store_data_result.
  destruct (selected_year c) as [[| lo [| hi rest]] |];
    try discriminate;
    destruct (chosen (selected_month c)); try destruct (existsb null_month data);
    try discriminate; now intros [= <-].
Qed.

(** X11: when the filter returns and no stored record matches the criteria,
    the session receives an empty list, and each of the five chart callbacks
    raises KeyError on it: a frame rebuilt from no record has no column. *)
Theorem charts_when_nothing_matches (c : criteria) (data data_set : store)
  (out : list record) :
  snd (store_data c data) = Ok out ->
  (forall r, In r data -> matches c r = false) ->
  out = []
  /\ update_stat_cards out = Raise (KeyError "last_update")
  /\ mapA_damage_choropleth out = Raise (KeyError "country")
  /\ mapB_disaster_count_choropleth out = Raise (KeyError "country")
  /\ plot_bar_total_disaster data_set out = Raise (KeyError "year")
  /\ plot_line_casualty_trend out = Raise (KeyError "year").
Proof.
  intros Hout Hnone. apply store_data_Ok in Hout.
  rewrite (filter_none _ _ Hnone) in Hout. subst out. repeat split.
Qed.

Lemma charts_when_nothing_matches_witness :
  snd (store_data droughts fixture) = Ok []
  /\ (forall r, In r fixture -> matches droughts r = false)
  /\ plot_bar_total_disaster fixture [] = Raise (KeyError "year")
  /\ plot_line_casualty_trend [] = Raise (KeyError "year").
Proof.
  assert (H1 : snd (store_data droughts fixture) = Ok []) by reflexivity.
  assert (H2 : forall r, In r fixture -> matches droughts r = false).
  { intros r Hr. simpl in Hr.
    repeat (destruct Hr as [<- | Hr]; [reflexivity |]). contradiction. }
  split; [exact H1 |]. split; [exact H2 |].
  destruct (charts_when_nothing_matches droughts fixture fixture [] H1 H2)
    as [_ [_ [_ [_ [Hbar Hline]]]]].
  split; [exact Hbar | exact Hline].
Defined.

(** ** Order of the trend line *)

Lemma plot_line_points (data : list record) :
  data <> [] ->
  exists ys text,
    sorted (unique (map year_text data)) = map str ys
    /\ plot_line_casualty_trend data
       = Ok {| points := map (fun y => (y, group_sum data year_text total_deaths (str y))) ys;
               hline := mean (map (fun y => group_sum data year_text total_deaths (str y)) ys);
               annotation_text := "Period mean:" ++ text |}.
Proof.
  intros Hdata. unfold plot_line_casualty_trend, DataFrame.
  rewrite (groupby_sum_nonempty data _ _ _ Hdata). cbn [bind].
  destruct (group_years data) as [ys Hys]. rewrite Hys.
  rewrite !map_map. cbn [fst snd].
  change (map (fun x : Z => str x) ys) with (map str ys).
  rewrite traverse_int_of_str. cbn [bind].
  destruct (format_value_float
              (mean (map (fun y => group_sum data year_text total_deaths (str y)) ys)))
    as [text Htext].
  rewrite Htext. cbn [bind]. exists ys, text. split; [reflexivity |].
  now rewrite combine_map_self.
Qed.

Lemma StronglySorted_map {A B : Type} (R : B -> B -> Prop) (f : A -> B) (l : list A) :
  StronglySorted R (map f l) -> StronglySorted (fun a b => R (f a) (f b)) l.
Proof.
  induction l as [| a l IH]; simpl; intros H; [constructor |].
  apply StronglySorted_inv in H. destruct H as [H1 H2].
  constructor; [now apply IH |]. now rewrite Forall_map in H2.
Qed.

Lemma StronglySorted_strict {A : Type} (R Q : A -> A -> Prop) (l : list A) :
  (forall a b, In a l -> In b l -> R a b -> a <> b -> Q a b) ->
  NoDup l -> StronglySorted R l -> StronglySorted Q l.
Proof.
  intros H Hnd Hs. induction Hs as [| a l Hs IH Hall]; [constructor |].
  inversion Hnd as [| ? ? Ha Hnd']; subst.
  constructor.
  - apply IH; [| assumption]. intros x y Hx Hy. apply H; now right.
  - rewrite Forall_forall in *. intros b Hb. apply H; simpl; auto.
    intros ->. contradiction.
Qed.

(** X12: when the years of the subset are written with four digits, the
    points of the trend come in strictly ascending order of the year. *)
Theorem plot_line_casualty_trend_ascending (data : list record) :
  data <> [] ->
  Forall (fun r => four_digit (year r)) data ->
  exists fig,
    plot_line_casualty_trend data = Ok fig
    /\ StronglySorted Z.lt (map fst (points fig)).
Proof.
  intros Hdata Hyears.
  destruct (plot_line_points data Hdata) as [ys [text [Hys Hfig]]].
  eexists. split; [exact Hfig |]. cbn [points].
  rewrite map_map. cbn [fst]. rewrite map_id.
  pose proof (sorted_StronglySorted (unique (map year_text data))) as Hs.
  pose proof (group_keys_NoDup data year_text) as Hnd.
  pose proof (group_keys_In data year_text) as Hin.
  rewrite Hys in Hs, Hnd, Hin.
  apply StronglySorted_map in Hs. apply NoDup_map_inv in Hnd.
  assert (H4 : forall y, In y ys -> four_digit y).
  { intros y Hy. apply (in_map str) in Hy. apply Hin in Hy.
    destruct Hy as [r [Hr E]]. apply str_inj in E. subst y.
    rewrite Forall_forall in Hyears. now apply Hyears. }
  revert Hnd Hs. apply StronglySorted_strict.
  intros a b Ha Hb Hab Hne.
  rewrite (str_leb_four_digit a b (H4 a Ha) (H4 b Hb)) in Hab.
  apply Z.leb_le in Hab. lia.
Qed.

Lemma plot_line_casualty_trend_ascending_witness :
  fixture <> []
  /\ Forall (fun r => four_digit (year r)) fixture
  /\ exists fig,
       plot_line_casualty_trend fixture = Ok fig
       /\ StronglySorted Z.lt (map fst (points fig)).
Proof.
  assert (H1 : fixture <> []) by discriminate.
  assert (H2 : Forall (fun r => four_digit (year r)) fixture)
    by (repeat constructor; simpl; lia).
  split; [exact H1 |]. split; [exact H2 |].
  exact (plot_line_casualty_trend_ascending fixture H1 H2).
Defined.

(** With years of different lengths the order is that of the texts. *)
Example plot_line_casualty_trend_text_order :
  exists fig,
    plot_line_casualty_trend [flood_japan_2010; flood_japan_20000] = Ok fig
    /\ map fst (points fig) = [20000; 2010].
Proof. eexists. split; vm_compute; reflexivity. Qed.

(** ** Bins *)

Ltac bucket_case :=
  unfold bucket, cut, cut_from, first_upto, edge_lt, edge_eq, le_edge;
  cbn [fst snd tl]; decide_comparisons; reflexivity.

Lemma cut_bucket_five (t1 t2 t3 t4 : Z) (l1 l2 l3 l4 l5 : string) (v : Z) :
  0 < t1 < t2 -> t2 < t3 < t4 ->
  cut [Fin 0; Fin t1; Fin t2; Fin t3; Fin t4; Inf] [l1; l2; l3; l4; l5] (Some v)
  = bucket ([Fin 0; Fin t1; Fin t2; Fin t3; Fin t4; Inf], [l1; l2; l3; l4; l5]) v.
Proof.
  intros H12 H34.
  assert (C : v < 0 \/ v = 0 \/ 0 < v <= t1 \/ t1 < v <= t2 \/ t2 < v <= t3
              \/ t3 < v <= t4 \/ t4 < v) by lia.
  destruct C as [C | [C | [C | [C | [C | [C | C]]]]]]; bucket_case.
Qed.

Lemma cut_bucket_four (t1 t2 t3 : Z) (l1 l2 l3 l4 : string) (v : Z) :
  0 < t1 < t2 -> t2 < t3 ->
  cut [Fin 0; Fin t1; Fin t2; Fin t3; Inf] [l1; l2; l3; l4] (Some v)
  = bucket ([Fin 0; Fin t1; Fin t2; Fin t3; Inf], [l1; l2; l3; l4]) v.
Proof.
  intros H12 H3.
  assert (C : v < 0 \/ v = 0 \/ 0 < v <= t1 \/ t1 < v <= t2 \/ t2 < v <= t3
              \/ t3 < v) by lia.
  destruct C as [C | [C | [C | [C | [C | C]]]]]; bucket_case.
Qed.

Lemma damage_bins_bucket (m : spec_float) (v : Z) :
  cut (fst (damage_bins m)) (snd (damage_bins m)) (Some v) = bucket (damage_bins m) v.
Proof.
  unfold damage_bins.
  destruct (float_lt_int m 1000000); [| destruct (float_lt_int m 1000000000)];
    cbn [fst snd]; first [apply cut_bucket_five | apply cut_bucket_four]; lia.
Qed.

Lemma count_bins_bucket (m : spec_float) (v : Z) :
  cut (fst (count_bins m)) (snd (count_bins m)) (Some v) = bucket (count_bins m) v.
Proof.
  unfold count_bins.
  destruct (float_le_int m 20); [| destruct (float_le_int m 50)];
    cbn [fst snd]; apply cut_bucket_five; lia.
Qed.

(** X13: in every table of the two maps a value gets the label of the
    first bin whose upper edge is not below it, so the bins are closed on
    the right: a value equal to an edge belongs to the bin below the edge,
    and zero to the first bin.  A negative value gets no label. *)
Theorem bins_closed_on_the_right (m : spec_float) (v : Z) :
  cut (fst (damage_bins m)) (snd (damage_bins m)) (Some v) = bucket (damage_bins m) v
  /\ cut (fst (count_bins m)) (snd (count_bins m)) (Some v) = bucket (count_bins m) v
  /\ (v < 0 -> bucket (damage_bins m) v = None /\ bucket (count_bins m) v = None)
  /\ (forall i b l,
        nth_error (fst (damage_bins m)) (S i) = Some (Fin b) ->
        nth_error (snd (damage_bins m)) i = Some l ->
        bucket (damage_bins m) b = Some l)
  /\ (forall i b l,
        nth_error (fst (count_bins m)) (S i) = Some (Fin b) ->
        nth_error (snd (count_bins m)) i = Some l ->
        bucket (count_bins m) b = Some l).
Proof.
  split; [apply damage_bins_bucket |]. split; [apply count_bins_bucket |].
  split.
  { intros Hv. unfold bucket.
    replace (v <? 0) with true by (symmetry; apply Z.ltb_lt; lia). tauto. }
  split.
  - unfold damage_bins.
    destruct (float_lt_int m 1000000); [| destruct (float_lt_int m 1000000000)];
      cbn [fst snd]; intros i b l Hb Hl;
      do 6 (destruct i as [| i];
            [cbn in Hb, Hl;
             first [discriminate | injection Hb as <-; injection Hl as <-; reflexivity] |]);
      destruct i; discriminate.
  - unfold count_bins.
    destruct (float_le_int m 20); [| destruct (float_le_int m 50)];
      cbn [fst snd]; intros i b l Hb Hl;
      do 6 (destruct i as [| i];
            [cbn in Hb, Hl;
             first [discriminate | injection Hb as <-; injection Hl as <-; reflexivity] |]);
      destruct i; discriminate.
Qed.

Lemma bins_closed_on_the_right_witness :
  (-5 < 0)
  /\ bucket (damage_bins (quotient 5000 1)) (-5) = None
  /\ bucket (damage_bins (quotient 5000 1)) 1000 = Some "0 - 1K"
  /\ bucket (damage_bins (quotient 5000 1)) 1001 = Some "1K - 10K".
Proof.
  assert (H : -5 < 0) by lia.
  split; [exact H |].
  split; [| split; reflexivity].
  exact (proj1 (proj1 (proj2 (proj2 (bins_closed_on_the_right (quotient 5000 1) (-5)))) H)).
Defined.

(** ** Rows of the two maps *)

Lemma first_upto_In (uppers : list edge) (labels : list string) (v : Z) (l : string) :
  first_upto uppers labels v = Some l -> In l labels.
Proof.
  revert labels. induction uppers as [| hi uppers IH]; intros [| l' labels]; simpl;
    try discriminate.
  destruct (le_edge v hi).
  - intros [= ->]. now left.
  - intros H. right. now apply IH.
Qed.

Lemma bucket_In (table : list edge * list string) (v : Z) (l : string) :
  bucket table v = Some l -> In l (snd table).
Proof.
  unfold bucket. destruct (v <? 0); [discriminate | apply first_upto_In].
Qed.

Lemma flat_map_nil {A B : Type} (l : list A) : flat_map (fun _ : A => @nil B) l = [].
Proof. induction l; simpl; auto. Qed.

Lemma flat_map_agree {A B : Type} (f g : A -> list B) (l : list A) :
  (forall a, In a l -> f a = g a) -> flat_map f l = flat_map g l.
Proof.
  induction l as [| a l IH]; simpl; intros H; [reflexivity |].
  rewrite (H a) by now left. f_equal. apply IH. intros b Hb. apply H. now right.
Qed.

Lemma by_label_skip (r : map_row) (rs : list map_row) (labels : list string) :
  (forall l, In l labels -> has_category l r = false) ->
  flat_map (fun l => filter (has_category l) (r :: rs)) labels
  = flat_map (fun l => filter (has_category l) rs) labels.
Proof.
  intros H. apply flat_map_agree. intros l Hl. simpl. now rewrite (H l Hl).
Qed.

Lemma by_label_insert (r : map_row) (rs : list map_row) (labels : list string) (l0 : string) :
  NoDup labels -> In l0 labels -> row_category r = Some l0 ->
  Permutation (flat_map (fun l => filter (has_category l) (r :: rs)) labels)
              (r :: flat_map (fun l => filter (has_category l) rs) labels).
Proof.
  intros Hnd Hin Hcat. induction labels as [| l labels IH]; [contradiction |].
  inversion Hnd as [| ? ? Hl Hnd']; subst.
  cbn [flat_map].
  change (filter (has_category l) (r :: rs))
    with (if has_category l r then r :: filter (has_category l) rs
          else filter (has_category l) rs).
  destruct (String.eqb_spec l0 l) as [-> | Hne].
  - replace (has_category l r) with true by (symmetry; now apply has_category_Some).
    rewrite by_label_skip; [reflexivity |].
    intros l' Hl'. unfold has_category. rewrite Hcat.
    apply String.eqb_neq. intros ->. contradiction.
  - replace (has_category l r) with false.
    2:{ unfold has_category. rewrite Hcat. symmetry. now apply String.eqb_neq. }
    destruct Hin as [-> | Hin]; [congruence |].
    rewrite (IH Hnd' Hin). symmetry. apply Permutation_middle.
Qed.

Lemma sort_values_Permutation (rows : list map_row) (labels : list string) :
  NoDup labels ->
  (forall row l, In row rows -> row_category row = Some l -> In l labels) ->
  Permutation (sort_values rows labels) rows.
Proof.
  intros Hnd. unfold sort_values.
  induction rows as [| r rs IH]; intros Hcat.
  - simpl. now rewrite flat_map_nil.
  - assert (IH' := IH (fun row l H => Hcat row l (or_intror H))).
    destruct (row_category r) as [l0 |] eqn:E.
    + rewrite (by_label_insert r rs labels l0 Hnd (Hcat r l0 (or_introl eq_refl) E) E).
      cbn [filter]. unfold no_category at 1. rewrite E.
      cbn [app]. now constructor.
    + rewrite by_label_skip.
      2:{ intros l _. unfold has_category. now rewrite E. }
      cbn [filter]. unfold no_category at 1. rewrite E.
      rewrite <- Permutation_middle. now constructor.
Qed.

Lemma categorise_permutation (f : frame) (g : string -> Z)
  (table : list edge * list string) (fill : Z) :
  table_ok table ->
  (forall v, cut (fst table) (snd table) (Some v) = bucket table v) ->
  exists out missing,
    categorise f (map (fun r => Some (g (country r))) f) (fst table) (snd table) fill = Ok out
    /\ category_orders out = snd table
    /\ color_discrete_map out = combine (snd table) map_color
    /\ NoDup missing
    /\ (forall l, In l missing <->
          In l (snd table) /\ forall r, In r f -> bucket table (g (country r)) <> Some l)
    /\ Permutation (chart_rows out)
         (map (fun r => {| row_country := Some (country r);
                           row_value := Some (g (country r));
                           row_category := bucket table (g (country r)) |}) f
          ++ map (placeholder fill) missing).
Proof.
  intros [_ [Hnd [colors Hcol]]] Hcut.
  rewrite (categorise_rows f g (fst table) (snd table) fill colors Hcol).
  eexists.
  exists (filter (fun l => negb (isin l (unique (dropna
            (map (fun r => cut (fst table) (snd table) (Some (g (country r)))) f)))))
                 (snd table)).
  cbn [chart_rows category_orders color_discrete_map].
  split; [reflexivity |]. split; [reflexivity |].
  split.
  { unfold category_color in Hcol. rewrite zip_by_index in Hcol.
    destruct (List.length (snd table) <=? List.length map_color)%nat;
      [now injection Hcol as <- | discriminate]. }
  split; [now apply NoDup_filter |].
  split.
  { intros l. rewrite filter_In, negb_true_iff, isin_false, unique_In, dropna_In,
      in_map_iff.
    split; intros [H1 H2]; (split; [assumption |]).
    - intros r Hr E. apply H2. exists r. now rewrite Hcut.
    - intros [r [E Hr]]. rewrite Hcut in E. now apply (H2 r Hr). }
  cbn [chart_rows]. rewrite sort_values_Permutation.
  - apply Permutation_app_tail.
    erewrite map_ext; [reflexivity |]. intros r. cbn beta. now rewrite Hcut.
  - assumption.
  - intros row l Hrow E. rewrite in_app_iff, !in_map_iff in Hrow.
    destruct Hrow as [[r [<- Hr]] | [l' [<- Hl']]];
      unfold placeholder in E; cbn [row_category] in E.
    + rewrite Hcut in E. now apply bucket_In in E.
    + injection E as <-. now apply filter_In in Hl'.
Qed.

(** X14: the damage map has one row for every record of the subset, with the
    record's country, the total damage of that country as its value, and as
    its category the bin of that total in the table the median picks (no
    category when the total is negative); beside them one row of the value 0
    and without country for each label no country falls in; and nothing
    else.  The i-th label has the i-th colour. *)
Theorem mapA_damage_choropleth_rows (data : list record) :
  data <> [] ->
  exists out missing,
    mapA_damage_choropleth data = Ok out
    /\ category_orders out = snd (damage_bins (median (damage_by_country data)))
    /\ color_discrete_map out
       = combine (snd (damage_bins (median (damage_by_country data)))) map_color
    /\ NoDup missing
    /\ (forall l, In l missing <->
          In l (snd (damage_bins (median (damage_by_country data))))
          /\ forall r, In r data ->
               bucket (damage_bins (median (damage_by_country data)))
                      (group_sum data country total_damage (country r)) <> Some l)
    /\ Permutation (chart_rows out)
         (map (fun r =>
                 {| row_country := Some (country r);
                    row_value := Some (group_sum data country total_damage (country r));
                    row_category :=
                      bucket (damage_bins (median (damage_by_country data)))
                             (group_sum data country total_damage (country r)) |}) data
          ++ map (placeholder 0) missing).
Proof.
  intros Hdata. unfold mapA_damage_choropleth, DataFrame.
  rewrite (groupby_sum_nonempty data _ _ _ Hdata). cbn [bind].
  rewrite (merged_groups data (group_sum data country total_damage)).
  fold (damage_by_country data).
  destruct (categorise_permutation data (group_sum data country total_damage)
              (damage_bins (median (damage_by_country data))) 0
              (damage_bins_ok _) (damage_bins_bucket _))
    as [out [missing H]].
  exists out, missing.
  destruct (damage_bins (median (damage_by_country data))) as [bins labels].
  exact H.
Qed.

Lemma mapA_damage_choropleth_rows_witness :
  [flood_japan_2010; storm_japan_2011; quake_chile_2010] <> []
  /\ exists out (missing : list string),
       mapA_damage_choropleth [flood_japan_2010; storm_japan_2011; quake_chile_2010] = Ok out
       /\ List.length (chart_rows out) = (3 + List.length missing)%nat.
Proof.
  assert (H : [flood_japan_2010; storm_japan_2011; quake_chile_2010] <> []) by discriminate.
  split; [exact H |].
  destruct (mapA_damage_choropleth_rows _ H) as [out [missing [H1 [_ [_ [_ [_ H6]]]]]]].
  exists out, missing. split; [exact H1 |].
  apply Permutation_length in H6. rewrite H6, length_app, !length_map. reflexivity.
Defined.

(** X15: the disaster-count map has one row for every record of the subset,
    with the record's country, the number of records of that country as its
    value and the bin of that number as its category; beside them one row
    of the value 1 and without country for each label no country falls in;
    and nothing else.  The i-th label has the i-th colour. *)
Theorem mapB_disaster_count_choropleth_rows (data : list record) :
  data <> [] ->
  exists out missing,
    mapB_disaster_count_choropleth data = Ok out
    /\ category_orders out = snd (count_bins (median (disasters_by_country data)))
    /\ color_discrete_map out
       = combine (snd (count_bins (median (disasters_by_country data)))) map_color
    /\ NoDup missing
    /\ (forall l, In l missing <->
          In l (snd (count_bins (median (disasters_by_country data))))
          /\ forall r, In r data ->
               bucket (count_bins (median (disasters_by_country data)))
                      (Z.of_nat (List.length
                         (filter (fun r' => country r' =? country r)%string data)))
               <> Some l)
    /\ Permutation (chart_rows out)
         (map (fun r =>
                 {| row_country := Some (country r);
                    row_value :=
                      Some (Z.of_nat (List.length
                              (filter (fun r' => country r' =? country r)%string data)));
                    row_category :=
                      bucket (count_bins (median (disasters_by_country data)))
                             (Z.of_nat (List.length
                                (filter (fun r' => country r' =? country r)%string data))) |})
              data
          ++ map (placeholder 1) missing).
Proof.
  intros Hdata. unfold mapB_disaster_count_choropleth, DataFrame.
  rewrite (groupby_count_nonempty data _ _ Hdata). cbn [bind].
  rewrite (merged_groups data
             (fun k => Z.of_nat (List.length
                                   (filter (fun r => country r =? k)%string data)))).
  fold (disasters_by_country data).
  destruct (categorise_permutation data
              (fun k => Z.of_nat (List.length
                                    (filter (fun r => country r =? k)%string data)))
              (count_bins (median (disasters_by_country data))) 1
              (count_bins_ok _) (count_bins_bucket _))
    as [out [missing H]].
  exists out, missing.
  destruct (count_bins (median (disasters_by_country data))) as [bins labels].
  exact H.
Qed.

Lemma mapB_disaster_count_choropleth_rows_witness :
  fixture <> []
  /\ exists out (missing : list string),
       mapB_disaster_count_choropleth fixture = Ok out
       /\ List.length (chart_rows out) = (List.length fixture + List.length missing)%nat.
Proof.
  assert (H : fixture <> []) by discriminate.
  split; [exact H |].
  destruct (mapB_disaster_count_choropleth_rows _ H) as [out [missing [H1 [_ [_ [_ [_ H6]]]]]]].
  exists out, missing. split; [exact H1 |].
  apply Permutation_length in H6. rewrite H6, length_app, !length_map. reflexivity.
Defined.
